(** * MLP lookup: the model-matching engine of [app.py]

    A shallow embedding of the catalogue loader ([load_catalog]), the
    paste-box parser ([parse_models]) and the body of the "Find MLPs"
    handler, followed by the properties of the matching engine.

    Text is ASCII: a Python [str] is a [string], one [ascii] per character.
    Characters above 127 are taken as letters without case that are not
    white space.  A pandas frame is a list of rows; a cell that pandas
    would show as NaN is [None]. *)

From Stdlib Require Import Ascii.
From stdpp Require Import base list strings gmap.

Set Warnings "-clear-no-such-hyp".

(** ** Python string primitives *)

Module Py.

(** [str.isspace] on one ASCII character: TAB, LF, VT, FF, CR, the four
    separators 28..31 and the blank. *)
Definition is_space (c : ascii) : bool :=
  let n := nat_of_ascii c in
  ((9 <=? n) && (n <=? 13)) || ((28 <=? n) && (n <=? 31)) || (n =? 32).

Fixpoint lstrip (s : string) : string :=
  match s with
  | EmptyString => EmptyString
  | String c s' => if is_space c then lstrip s' else s
  end.

Fixpoint rstrip (s : string) : string :=
  match s with
  | EmptyString => EmptyString
  | String c s' =>
      match rstrip s' with
      | EmptyString => if is_space c then EmptyString else String c EmptyString
      | r => String c r
      end
  end.

(** [s.strip()] *)
Definition strip (s : string) : string := rstrip (lstrip s).

Definition upper_char (c : ascii) : ascii :=
  let n := nat_of_ascii c in
  if (97 <=? n) && (n <=? 122) then ascii_of_nat (n - 32) else c.

(** [s.upper()] *)
Fixpoint upper (s : string) : string :=
  match s with
  | EmptyString => EmptyString
  | String c s' => String (upper_char c) (upper s')
  end.

(** The character class of the split pattern in [parse_models]:
    line feed, comma, TAB, semicolon. *)
Definition is_delim (c : ascii) : bool :=
  let n := nat_of_ascii c in
  (n =? 10) || (n =? 44) || (n =? 9) || (n =? 59).

(** [re.split] on a one-character class: every occurrence of a delimiter
    ends a token, so [n] delimiters give [n + 1] tokens, empty ones
    included. *)
Fixpoint re_split (s : string) : list string :=
  match s with
  | EmptyString => [EmptyString]
  | String c s' =>
      if is_delim c then EmptyString :: re_split s'
      else match re_split s' with
           | t :: ts => String c t :: ts
           | [] => [String c EmptyString]
           end
  end.

(** [key in s], also what [Series.str.contains(re.escape(key))] tests on
    each cell: [key] occurs in [s] as a literal substring. *)
Fixpoint contains (s key : string) : bool :=
  String.prefix key s ||
  match s with
  | EmptyString => false
  | String _ s' => contains s' key
  end.

(** every character of the text is white space *)
Fixpoint all_space (s : string) : bool :=
  match s with
  | EmptyString => true
  | String c s' => is_space c && all_space s'
  end.

End Py.

(** ** [parse_models] *)

(** The body of the [for t in tokens] loop, with the two accumulators
    [seen] (a set) and [cleaned] (a list appended to). *)
Fixpoint parse_loop (tokens : list string) (seen : gset string)
    (cleaned : list string) : list string :=
  match tokens with
  | [] => cleaned
  | t :: tokens' =>
      let t2 := Py.strip t in
      if bool_decide (t2 = "") then parse_loop tokens' seen cleaned
      else
        let key := Py.upper t2 in
        if bool_decide (key ∈ seen) then parse_loop tokens' seen cleaned
        else parse_loop tokens' ({[key]} ∪ seen) (cleaned ++ [t2])
  end.

Definition parse_models (raw : string) : list string :=
  if bool_decide (Py.strip raw = "") then []
  else parse_loop (Py.re_split raw) ∅ [].

(** The normalized form of a query key, as the handler computes the
    [_key] column of the query frame. *)
Definition normalized (t : string) : string := Py.upper (Py.strip t).

(** The tokens of the input after trimming, empty ones dropped, in input
    order: what the loop of [parse_models] sees before deduplication. *)
Definition trimmed_tokens (raw : string) : list string :=
  filter (λ t, t ≠ "") (Py.strip <$> Py.re_split raw).

(** The first trimmed token of each normalized form not yet in [seen]:
    the list [cleaned] grows by exactly these. *)
Fixpoint first_by_key (seen : gset string) (l : list string) : list string :=
  match l with
  | [] => []
  | t :: l' =>
      if bool_decide (Py.upper t ∈ seen) then first_by_key seen l'
      else t :: first_by_key ({[Py.upper t]} ∪ seen) l'
  end.

(** ** Exceptions *)

Inductive exn : Type :=
  | ValueError (msg : string)
  | KeyError (column : string)
  | AttributeError (msg : string).

Inductive result (A : Type) : Type :=
  | Ok (a : A)
  | Raise (e : exn).
Arguments Ok {A} a.
Arguments Raise {A} e.

Definition raises {A} (r : result A) : Prop :=
  match r with Ok _ => False | Raise _ => True end.

(** ** Frames *)

(** What [pd.read_csv(path, dtype=str)] hands over: the header and the
    rows, a missing cell being NaN ([None]). *)
Record Table : Type := {
  columns : list string;
  rows : list (list (option string))
}.

(** A row of the catalogue frame after [fillna("")]: its cells, aligned
    with the header, and the added [_key] column. *)
Record CatRow : Type := {
  cells : list string;
  cat_key : string
}.

Record Catalog : Type := {
  cat_columns : list string;
  cat_rows : list CatRow
}.

(** [row[name]] for a column of the header; [None] when the frame has no
    such column. *)
Definition cell (cols : list string) (r : list string) (name : string)
    : option string :=
  match list_find (λ c, c = name) cols with
  | Some (i, _) => Some (default "" (r !! i))
  | None => None
  end.

(** [name in df.columns] *)
Definition has_column (cols : list string) (name : string) : bool :=
  bool_decide (name ∈ cols).

Definition fillna (r : list (option string)) : list string :=
  default "" <$> r.

Definition load_catalog (source : Table) : result Catalog :=
  let cols := columns source in
  let df := fillna <$> rows source in
  if has_column cols "Model" then
    Ok {| cat_columns := cols;
          cat_rows :=
            (λ r, {| cells := r;
                     cat_key :=
                       Py.upper (Py.strip (default "" (cell cols r "Model"))) |})
              <$> df |}
  else Raise (ValueError "products.csv must have a 'Model' column").

(** A row of [res]: the query columns [Model_in] and [_key], and the three
    catalogue columns the handler reads.  Other catalogue columns ride
    along in pandas and are dropped by the final column selection; they
    are left out here. *)
Record ResRow : Type := {
  Model_in : string;
  _key : string;
  Model : option string;
  MLP : option string;
  Description : option string
}.

(** [res] with the columns it has. *)
Record ResFrame : Type := {
  has_Model : bool;
  has_MLP : bool;
  has_Description : bool;
  res_rows : list ResRow
}.

(** The rows of [right] with the key of the left row [a], in the order of
    [right]. *)
Definition matches {A B : Type} (key_l : A → string) (key_r : B → string)
    (a : A) (right : list B) : list B :=
  filter (λ b, key_r b = key_l a) right.

(** [left.merge(right, on="_key", how="left")]: rows in the order of the
    left frame; a left row with several matches is repeated once per
    match, in the order of the right frame; one with none is kept with
    NaN on the right. *)
Definition merge_left {A B C : Type} (key_l : A → string) (key_r : B → string)
    (join : A → option B → C) (left : list A) (right : list B) : list C :=
  left ≫= (λ a,
    match matches key_l key_r a right with
    | [] => [join a None]
    | hits => (λ b, join a (Some b)) <$> hits
    end).

(** The query frame [q]. *)
Definition query_frame (models : list string) : list (string * string) :=
  (λ m, (m, Py.upper (Py.strip m))) <$> models.

Definition join_exact (cols : list string) (q : string * string)
    (c : option CatRow) : ResRow :=
  {| Model_in := q.1;
     _key := q.2;
     Model := c ≫= (λ c, cell cols (cells c) "Model");
     MLP := c ≫= (λ c, cell cols (cells c) "MLP");
     Description := c ≫= (λ c, cell cols (cells c) "Description") |}.

(** [res = q.merge(cat, on="_key", how="left")] *)
Definition merge_exact (cat : Catalog) (models : list string) : ResFrame :=
  let cols := cat_columns cat in
  {| has_Model := has_column cols "Model";
     has_MLP := has_column cols "MLP";
     has_Description := has_column cols "Description";
     res_rows :=
       merge_left snd cat_key (join_exact cols)
         (query_frame models) (cat_rows cat) |}.

(** [pd.isna(x) or str(x).strip() == ""] *)
Definition is_missing (x : option string) : bool :=
  match x with
  | None => true
  | Some s => bool_decide (Py.strip s = "")
  end.

(** [Series.unique().tolist()]: first occurrences, in order. *)
Fixpoint unique (l : list string) : list string :=
  match l with
  | [] => []
  | x :: l' => x :: filter (λ y, y ≠ x) (unique l')
  end.

(** [res.loc[missing_mask, "_key"].unique().tolist()] *)
Definition missing_keys (res : list ResRow) : list string :=
  unique (_key <$> filter (λ r, is_missing (MLP r) = true) res).

(** One dictionary appended to [contains_rows]. *)
Record ContainsRow : Type := {
  hit_key : string;
  hit_Model : string;
  hit_MLP : string;
  hit_Description : string
}.

(** The loop over [missing_keys]: for each key the first catalogue row
    whose upper-cased [Model] contains it, if there is one. *)
Definition contains_scan (cat : Catalog) (keys : list string)
    : list ContainsRow :=
  let cols := cat_columns cat in
  keys ≫= (λ key,
    match filter (λ c, Py.contains
                         (Py.upper (default "" (cell cols (cells c) "Model")))
                         key = true) (cat_rows cat) with
    | [] => []
    | row :: _ =>
        [ {| hit_key := key;
             hit_Model := default "" (cell cols (cells row) "Model");
             hit_MLP := default "" (cell cols (cells row) "MLP");
             hit_Description :=
               default "" (cell cols (cells row) "Description") |} ]
    end).

Definition join_contains (r : ResRow) (d : option ContainsRow) : ResRow :=
  {| Model_in := Model_in r;
     _key := _key r;
     Model := hit_Model <$> d;
     MLP := hit_MLP <$> d;
     Description := hit_Description <$> d |}.

(** [res.drop(columns=[...]).merge(contains_df, on="_key", how="left")]:
    the three catalogue columns of every row are dropped and read again
    from [contains_df]. *)
Definition merge_contains (res : ResFrame) (contains_rows : list ContainsRow)
    : ResFrame :=
  {| has_Model := true;
     has_MLP := true;
     has_Description := true;
     res_rows :=
       merge_left _key hit_key join_contains (res_rows res) contains_rows |}.

(** The [if allow_contains:] block. *)
Definition contains_fallback (cat : Catalog) (res : ResFrame)
    : result ResFrame :=
  if negb (has_MLP res) then Raise (KeyError "MLP")
  else if existsb (λ r, is_missing (MLP r)) (res_rows res) then
    if negb (has_column (cat_columns cat) "Model")
    then Raise (KeyError "Model")
    else
      match contains_scan cat (missing_keys (res_rows res)) with
      | [] => Ok res
      | contains_rows => Ok (merge_contains res contains_rows)
      end
  else Ok res.

(** A row of [res_display]: the row of [res] it comes from, the [Model]
    column as rewritten for display and the [Status] column. *)
Record DisplayRow : Type := {
  res_row : ResRow;
  Model_shown : string;
  Status : string
}.

Record DisplayFrame : Type := {
  shows_Description : bool;
  display_rows : list DisplayRow
}.

Definition status_of (x : option string) : string :=
  if is_missing x then "Not found" else "OK".

(** One row of [res_display]: [Model] falls back to the pasted text
    where the merge left NaN (or where [res] has no such column), and
    [Status] is read off [MLP]. *)
Definition display_row (with_Model : bool) (r : ResRow) : DisplayRow :=
  {| res_row := r;
     Model_shown :=
       if with_Model then default (Model_in r) (Model r) else Model_in r;
     Status := status_of (MLP r) |}.

(** From [res_display = res.copy()] to the [Status] column.  A catalogue
    with a [Model_in] column of its own makes the first merge rename
    both, and the display step then finds no [Model_in]. *)
Definition display (cat : Catalog) (res : ResFrame) : result DisplayFrame :=
  if has_column (cat_columns cat) "Model_in" then Raise (KeyError "Model_in")
  else if negb (has_MLP res)
  then Raise (AttributeError "'str' object has no attribute 'apply'")
  else
    Ok {| shows_Description := has_Description res;
          display_rows := display_row (has_Model res) <$> res_rows res |}.

(** The engine between [parse_models] and the "show only not found"
    filter: exact merge, optional contains fallback, display columns. *)
Definition resolve (cat : Catalog) (allow_contains : bool)
    (models : list string) : result DisplayFrame :=
  let res := merge_exact cat models in
  match (if allow_contains then contains_fallback cat res else Ok res) with
  | Raise e => Raise e
  | Ok res => display cat res
  end.

(** What one press of the button ends in. *)
Inductive outcome : Type :=
  | Stopped (warning : string)
  | Raised (e : exn)
  | Shown (header : list string) (table : list DisplayRow).

(** [[c for c in cols if c in res_display.columns]] *)
Definition final_columns (fr : DisplayFrame) : list string :=
  ["Model"; "MLP"] ++ (if shows_Description fr then ["Description"] else [])
    ++ ["Status"].

(** The script from [cat = load_catalog()] to the table shown, for one
    catalogue file, one setting of the check boxes and one pasted text. *)
Definition find_mlps (source : Table) (show_only_not_found allow_contains : bool)
    (user_text : string) : outcome :=
  match load_catalog source with
  | Raise e => Raised e
  | Ok cat =>
      match parse_models user_text with
      | [] => Stopped "Please paste at least one model."
      | models =>
          match resolve cat allow_contains models with
          | Raise e => Raised e
          | Ok fr =>
              Shown (final_columns fr)
                (if show_only_not_found
                 then filter (λ r, Status r = "Not found") (display_rows fr)
                 else display_rows fr)
          end
      end
  end.

(** ** Vocabulary of the statements *)

(** The catalogue rows whose [_key] is the normalized form of [m], in
    catalogue order. *)
Definition exact_hits (cat : Catalog) (m : string) : list CatRow :=
  filter (λ c, cat_key c = normalized m) (cat_rows cat).

(** The number of rows the left merge gives the query key [m]. *)
Definition entries_for (cat : Catalog) (m : string) : nat :=
  Nat.max 1 (length (exact_hits cat m)).

(** The keys the contains scan runs over, for a list of query keys. *)
Definition scanned (cat : Catalog) (models : list string) : list string :=
  missing_keys (res_rows (merge_exact cat models)).

(** The catalogue can serve lookups: the columns [Model] and [MLP] are
    there and no column is called [Model_in]. *)
Definition serves (cat : Catalog) : bool :=
  has_column (cat_columns cat) "Model" && has_column (cat_columns cat) "MLP"
  && negb (has_column (cat_columns cat) "Model_in").

(** ** Catalogues used in the examples *)

Definition table_of (header : list string) (body : list (list string)) : Table :=
  {| columns := header; rows := (λ r : list string, Some <$> r) <$> body |}.

Definition header3 : list string := ["Model"; "MLP"; "Description"].

(** Two rows whose [Model] normalizes to the same key. *)
Definition duplicate_source : Table :=
  table_of header3
    [["PRD-1001"; "M1"; "Widget"]; [" prd-1001"; "M2"; "Other"]].

Definition duplicate_catalog : Catalog :=
  {| cat_columns := header3;
     cat_rows :=
       [ {| cells := ["PRD-1001"; "M1"; "Widget"]; cat_key := "PRD-1001" |};
         {| cells := [" prd-1001"; "M2"; "Other"]; cat_key := "PRD-1001" |} ] |}.

(** One exact row and one row that only contains the second key. *)
Definition mixed_source : Table :=
  table_of header3
    [["PRD-1001"; "M1"; "Widget"]; ["ABC-PRD-2002-X"; "M9"; "Gadget"]].

(** A longer model first, then the exact row with a blank [MLP]. *)
Definition blank_source : Table :=
  table_of header3
    [["ABC-PRD-1001-X"; "M9"; "Gadget"]; ["PRD-1001"; " "; "Widget"]].

Definition blank_catalog : Catalog :=
  {| cat_columns := header3;
     cat_rows :=
       [ {| cells := ["ABC-PRD-1001-X"; "M9"; "Gadget"];
            cat_key := "ABC-PRD-1001-X" |};
         {| cells := ["PRD-1001"; " "; "Widget"]; cat_key := "PRD-1001" |} ] |}.

(** A catalogue file with the [Model] column only. *)
Definition model_only_source : Table :=
  table_of ["Model"] [["PRD-1001"]].

Definition single_source : Table :=
  table_of header3 [["PRD-1001"; "M1"; "Widget"]].

Definition single_catalog : Catalog :=
  {| cat_columns := header3;
     cat_rows :=
       [ {| cells := ["PRD-1001"; "M1"; "Widget"]; cat_key := "PRD-1001" |} ] |}.

(** The exact row of "PRD-7" has an empty [MLP]; an earlier row contains
    the key. *)
Definition empty_mlp_source : Table :=
  table_of header3 [["XPRD-70"; "M3"; "Long"]; ["prd-7"; ""; "Short"]].

(** A catalogue file whose header spells the column [model]. *)
Definition lowercase_source : Table :=
  table_of ["model"; "MLP"; "Description"] [["PRD-1001"; "M1"; "Widget"]].

(** A catalogue file without the [Description] column. *)
Definition no_description_source : Table :=
  table_of ["Model"; "MLP"] [["PRD-1001"; "M1"]].

(** ** Vocabulary of the further properties *)

(** No character of the text is a delimiter of the split pattern. *)
Fixpoint no_delim (s : string) : bool :=
  match s with
  | EmptyString => true
  | String c s' => negb (Py.is_delim c) && no_delim s'
  end.

(** Every character of the text is white space or a delimiter. *)
Fixpoint only_separators (s : string) : bool :=
  match s with
  | EmptyString => true
  | String c s' => (Py.is_space c || Py.is_delim c) && only_separators s'
  end.

(** [sep.join(l)] *)
Fixpoint join (sep : string) (l : list string) : string :=
  match l with
  | [] => EmptyString
  | x :: l' =>
      match l' with
      | [] => x
      | _ :: _ => x +:+ sep +:+ join sep l'
      end
  end.

Definition newline : string := String (ascii_of_nat 10) EmptyString.

(** The frame [hit] of the scan for one key: the catalogue rows whose
    upper-cased [Model] contains the key, in catalogue order. *)
Definition containing (cat : Catalog) (key : string) : list CatRow :=
  filter (λ c, Py.contains
                 (Py.upper (default "" (cell (cat_columns cat) (cells c) "Model")))
                 key = true) (cat_rows cat).

(** The dictionary the scan appends for [key] and the row [hit.iloc[0]]. *)
Definition hit_row (cat : Catalog) (key : string) (row : CatRow) : ContainsRow :=
  {| hit_key := key;
     hit_Model := default "" (cell (cat_columns cat) (cells row) "Model");
     hit_MLP := default "" (cell (cat_columns cat) (cells row) "MLP");
     hit_Description :=
       default "" (cell (cat_columns cat) (cells row) "Description") |}.

(** [matched = int((res_display["Status"]=="OK").sum())], counted on the
    table as shown, that is after the "show only not found" filter. *)
Definition matched (table : list DisplayRow) : nat :=
  length (filter (λ r, Status r = "OK") table).

(** The two numbers of the message [Matched {matched} of {len(res_display)}]. *)
Definition success_counts (o : outcome) : option (nat * nat) :=
  match o with
  | Shown _ table => Some (matched table, length table)
  | _ => None
  end.

(** The catalogue a file loads as (empty if the file does not load). *)
Definition catalog_of (source : Table) : Catalog :=
  match load_catalog source with
  | Ok cat => cat
  | Raise _ => {| cat_columns := []; cat_rows := [] |}
  end.

Example parse_models_ex1 :
  parse_models "prd-1001
PRD-1001,  abc ;;	x" = ["prd-1001"; "abc"; "x"].
Proof. vm_compute. reflexivity. Qed.

Example strip_ex : Py.strip "  a b 	 " = "a b".
Proof. reflexivity. Qed.

Example re_split_ex : Py.re_split "a,,b;" = ["a"; ""; "b"; ""].
Proof. reflexivity. Qed.

Example contains_ex :
  Py.contains "ABC-PRD-1001-X" "PRD-1001" = true ∧
  Py.contains "PRD-1001" "PRD-1001-X" = false.
Proof. split; reflexivity. Qed.

(** ** Facts about the string primitives *)

Section strings.

Lemma lstrip_all_space s : Py.all_space s = true → Py.lstrip s = "".
Proof.
  induction s as [|c s IH]; simpl; [done|].
  intros [Hc Hs]%andb_true_iff. rewrite Hc. by apply IH.
Qed.

Lemma lstrip_empty s : Py.lstrip s = "" → Py.all_space s = true.
Proof.
  induction s as [|c s IH]; simpl; [done|].
  destruct (Py.is_space c); [auto | discriminate].
Qed.

Lemma rstrip_all_space s : Py.all_space s = true → Py.rstrip s = "".
Proof.
  induction s as [|c s IH]; simpl; [done|].
  intros [Hc Hs]%andb_true_iff. by rewrite (IH Hs), Hc.
Qed.

Lemma rstrip_empty s : Py.rstrip s = "" → Py.all_space s = true.
Proof.
  induction s as [|c s IH]; simpl; [done|].
  destruct (Py.rstrip s) eqn:Hr; [|discriminate].
  destruct (Py.is_space c); [auto | discriminate].
Qed.

Lemma rstrip_idemp s : Py.rstrip (Py.rstrip s) = Py.rstrip s.
Proof.
  induction s as [|c s IH]; simpl; [done|].
  destruct (Py.rstrip s) as [|d r] eqn:Hr.
  - destruct (Py.is_space c) eqn:Hc; simpl; [done|]. by rewrite Hc.
  - change (Py.rstrip (String c (String d r))) with
      (match Py.rstrip (String d r) with
       | "" => if Py.is_space c then "" else String c ""
       | r' => String c r'
       end).
    by rewrite IH.
Qed.

(** Trimming on the right keeps a first character that is not white space. *)
Lemma rstrip_head c s :
  Py.is_space c = false → ∃ r, Py.rstrip (String c s) = String c r.
Proof.
  intros Hc. simpl. destruct (Py.rstrip s); rewrite ?Hc; eauto.
Qed.

Lemma lstrip_head s : Py.lstrip s = "" ∨ ∃ c r, Py.lstrip s = String c r ∧ Py.is_space c = false.
Proof.
  induction s as [|c s IH]; simpl; [by left|].
  destruct (Py.is_space c) eqn:Hc; [done|]. right; eauto.
Qed.

Lemma strip_idemp s : Py.strip (Py.strip s) = Py.strip s.
Proof.
  unfold Py.strip. destruct (lstrip_head s) as [->|(c & r & -> & Hc)]; [done|].
  destruct (rstrip_head c r Hc) as [r' Hr]. rewrite Hr.
  simpl Py.lstrip. rewrite Hc, <-Hr. apply rstrip_idemp.
Qed.

Lemma strip_empty_iff s : Py.strip s = "" ↔ Py.all_space s = true.
Proof.
  unfold Py.strip. split.
  - intros H%rstrip_empty. revert H.
    induction s as [|c s IH]; simpl; [done|].
    destruct (Py.is_space c) eqn:Hc; simpl; [auto|]. by rewrite Hc.
  - intros H. by rewrite lstrip_all_space.
Qed.

Lemma upper_empty s : Py.upper s = "" → s = "".
Proof. by destruct s. Qed.

Lemma normalized_strip t : normalized (Py.strip t) = Py.upper (Py.strip t).
Proof. unfold normalized. by rewrite strip_idemp. Qed.

(** The tokens of a text made of white space are made of white space. *)
Lemma re_split_all_space s :
  Py.all_space s = true → Forall (λ t, Py.all_space t = true) (Py.re_split s).
Proof.
  induction s as [|c s IH]; simpl.
  - by repeat constructor.
  - intros [Hc Hs]%andb_true_iff. specialize (IH Hs).
    destruct (Py.is_delim c); [by constructor|].
    destruct (Py.re_split s) as [|t ts]; [by repeat constructor; simpl; rewrite Hc|].
    inversion_clear IH. constructor; [|done]. simpl. by rewrite Hc.
Qed.

End strings.

(** ** [parse_models] keeps the first token of each normalized form *)

Section parse.

Implicit Types (l : list string) (seen : gset string) (t u : string).

Lemma parse_loop_first tokens seen cleaned :
  parse_loop tokens seen cleaned =
  cleaned ++ first_by_key seen (filter (λ t, t ≠ "") (Py.strip <$> tokens)).
Proof.
  revert seen cleaned. induction tokens as [|t tokens IH]; intros seen cleaned.
  - by rewrite app_nil_r.
  - cbn [parse_loop fmap list_fmap]. rewrite filter_cons.
    case_bool_decide as Ht; case_decide; try done; try apply IH.
    cbn [first_by_key]. case_bool_decide; [apply IH|].
    by rewrite IH, <-app_assoc.
Qed.

Lemma trimmed_tokens_all_space raw :
  Py.all_space raw = true → trimmed_tokens raw = [].
Proof.
  intros H%re_split_all_space. unfold trimmed_tokens.
  induction H as [|t ts Ht _ IH]; [done|].
  rewrite fmap_cons, filter_cons. case_decide as Hne; [|done].
  by apply strip_empty_iff in Ht.
Qed.

(** The early return of [parse_models] changes nothing: a text that
    trims to nothing has no token that survives trimming. *)
Lemma parse_models_first raw :
  parse_models raw = first_by_key ∅ (trimmed_tokens raw).
Proof.
  unfold parse_models. case_bool_decide as H.
  - apply strip_empty_iff in H. by rewrite trimmed_tokens_all_space.
  - by rewrite parse_loop_first.
Qed.

Lemma trimmed_tokens_strip raw t : t ∈ trimmed_tokens raw → Py.strip t = t.
Proof.
  unfold trimmed_tokens. intros [_ (x & -> & _)%list_elem_of_fmap]%list_elem_of_filter.
  apply strip_idemp.
Qed.

Lemma trimmed_tokens_normalized raw t :
  t ∈ trimmed_tokens raw → normalized t = Py.upper t.
Proof. intros H%trimmed_tokens_strip. unfold normalized. by rewrite H. Qed.

Lemma first_by_key_subseteq seen l : first_by_key seen l ⊆ l.
Proof.
  revert seen. induction l as [|x l IH]; intros seen; simpl; [done|].
  case_bool_decide.
  - intros y Hy. right. by eapply IH.
  - intros y [->|Hy]%elem_of_cons; [left | right; by eapply IH].
Qed.

Lemma first_by_key_fresh seen l t : t ∈ first_by_key seen l → Py.upper t ∉ seen.
Proof.
  revert seen. induction l as [|x l IH]; intros seen; simpl.
  - by intros ?%elem_of_nil.
  - case_bool_decide; [by apply IH|].
    intros [->|Hy%IH]%elem_of_cons; [done | set_solver].
Qed.

Lemma first_by_key_NoDup seen l : NoDup (Py.upper <$> first_by_key seen l).
Proof.
  revert seen. induction l as [|x l IH]; intros seen; simpl; [constructor|].
  case_bool_decide; [apply IH|].
  rewrite fmap_cons. constructor; [|apply IH].
  intros (y & Hy & Hin%first_by_key_fresh)%list_elem_of_fmap. set_solver.
Qed.

Lemma first_by_key_first seen l t :
  t ∈ first_by_key seen l →
  ∃ l1 l2, l = l1 ++ t :: l2 ∧ Forall (λ u, Py.upper u ≠ Py.upper t) l1.
Proof.
  revert seen. induction l as [|x l IH]; intros seen; simpl.
  - by intros ?%elem_of_nil.
  - case_bool_decide as Hx.
    + intros Ht. pose proof (first_by_key_fresh _ _ _ Ht) as Hfresh.
      destruct (IH _ Ht) as (l1 & l2 & -> & Hl1).
      exists (x :: l1), l2. split; [done|]. constructor; [congruence | done].
    + intros [->|Ht]%elem_of_cons; [by exists [], l|].
      pose proof (first_by_key_fresh _ _ _ Ht) as Hfresh.
      destruct (IH _ Ht) as (l1 & l2 & -> & Hl1).
      exists (x :: l1), l2. split; [done|]. constructor; [set_solver | done].
Qed.

Lemma first_by_key_covers seen l u :
  u ∈ l → Py.upper u ∈ seen ∨ ∃ t, t ∈ first_by_key seen l ∧ Py.upper t = Py.upper u.
Proof.
  revert seen. induction l as [|x l IH]; intros seen; [by intros ?%elem_of_nil|].
  simpl. intros [->|Hu]%elem_of_cons.
  - case_bool_decide; [by left|]. right. exists x. split; [left | done].
  - case_bool_decide.
    + by apply IH.
    + destruct (IH ({[Py.upper x]} ∪ seen) Hu) as [[->%elem_of_singleton|?]%elem_of_union|(t & ? & ?)].
      * right. exists x. split; [left | done].
      * by left.
      * right. exists t. split; [by right | done].
Qed.

Lemma first_by_key_app seen l1 l2 :
  first_by_key seen (l1 ++ l2) =
  first_by_key seen l1 ++ first_by_key (seen ∪ list_to_set (Py.upper <$> l1)) l2.
Proof.
  revert seen. induction l1 as [|x l1 IH]; intros seen; simpl.
  - f_equal. set_solver.
  - case_bool_decide as Hx; rewrite IH.
    + f_equal. f_equal. set_solver.
    + simpl. do 3 f_equal. set_solver.
Qed.

Lemma first_by_key_cons_fresh seen t l :
  Py.upper t ∉ seen →
  first_by_key seen (t :: l) = t :: first_by_key ({[Py.upper t]} ∪ seen) l.
Proof. intros H. simpl. by rewrite bool_decide_eq_false_2. Qed.

Lemma upper_fresh_in l t :
  Forall (λ u, Py.upper u ≠ Py.upper t) l →
  Py.upper t ∉ (list_to_set (Py.upper <$> l) : gset string).
Proof.
  rewrite Forall_forall. intros H (u & Hu & Hin)%elem_of_list_to_set%list_elem_of_fmap.
  by apply (H u).
Qed.

End parse.

(** Claim C7.  For every input text, no two keys returned by
    [parse_models] have the same normalized form (the upper-cased trimmed
    token); each returned key is the first trimmed token of the input with
    its normalized form; and every trimmed token of the input is
    represented by a returned key of the same normalized form, so later
    duplicates add no entry. *)
Theorem parse_models_dedup (raw : string) :
  NoDup (normalized <$> parse_models raw) ∧
  (∀ t, t ∈ parse_models raw →
     ∃ l1 l2, trimmed_tokens raw = l1 ++ t :: l2 ∧
              Forall (λ u, normalized u ≠ normalized t) l1) ∧
  (∀ u, u ∈ trimmed_tokens raw →
     ∃ t, t ∈ parse_models raw ∧ normalized t = normalized u).
Proof.
  rewrite parse_models_first.
  assert (Hsub : ∀ t, t ∈ first_by_key ∅ (trimmed_tokens raw) →
                      normalized t = Py.upper t).
  { intros t Ht%first_by_key_subseteq. by eapply trimmed_tokens_normalized. }
  split; [|split].
  - erewrite list_fmap_ext; [apply first_by_key_NoDup|].
    intros i t Hi. apply Hsub. by eapply list_elem_of_lookup_2.
  - intros t Ht. destruct (first_by_key_first _ _ _ Ht) as (l1 & l2 & Heq & Hl1).
    exists l1, l2. split; [done|].
    rewrite Forall_forall in Hl1 |- *. intros u Hu.
    rewrite (Hsub t Ht), (trimmed_tokens_normalized raw u).
    + by apply Hl1.
    + rewrite Heq. apply elem_of_app. by left.
  - intros u Hu.
    destruct (first_by_key_covers ∅ _ _ Hu) as [?%not_elem_of_empty|(t & Ht & Heq)]; [done|].
    exists t. split; [done|].
    by rewrite (Hsub t Ht), (trimmed_tokens_normalized raw u).
Qed.

(** ** The left merge *)

Section filter.

Context {A : Type} (P : A → Prop) `{!∀ x, Decision (P x)}.

Lemma filter_none (l : list A) : (∀ x, x ∈ l → ¬ P x) → filter P l = [].
Proof.
  induction l as [|x l IH]; intros Hl; [done|].
  rewrite filter_cons_False; [|apply Hl; left].
  apply IH. intros y Hy. apply Hl. by right.
Qed.

Lemma filter_all (l : list A) : (∀ x, x ∈ l → P x) → filter P l = l.
Proof.
  induction l as [|x l IH]; intros Hl; [done|].
  rewrite filter_cons_True; [|apply Hl; left].
  f_equal. apply IH. intros y Hy. apply Hl. by right.
Qed.

End filter.

Section merge.

Context {A B C : Type} (key_l : A → string) (key_r : B → string)
  (join : A → option B → C).

Local Abbreviation hits := (matches key_l key_r).

Lemma merge_left_nil right : merge_left key_l key_r join [] right = [].
Proof. done. Qed.

Lemma merge_left_cons a left right :
  merge_left key_l key_r join (a :: left) right =
  merge_left key_l key_r join [a] right ++ merge_left key_l key_r join left right.
Proof. unfold merge_left. by rewrite bind_singleton, bind_cons. Qed.

Lemma merge_left_app l1 l2 right :
  merge_left key_l key_r join (l1 ++ l2) right =
  merge_left key_l key_r join l1 right ++ merge_left key_l key_r join l2 right.
Proof. unfold merge_left. apply bind_app. Qed.

Lemma merge_left_one a right :
  merge_left key_l key_r join [a] right =
  match hits a right with
  | [] => [join a None]
  | bs => (λ b, join a (Some b)) <$> bs
  end.
Proof. unfold merge_left. by rewrite bind_singleton. Qed.

Lemma merge_left_one_length a right :
  length (merge_left key_l key_r join [a] right) =
  Nat.max 1 (length (hits a right)).
Proof.
  rewrite merge_left_one. destruct (hits a right) as [|b bs]; [done|].
  rewrite length_fmap. simpl. lia.
Qed.

(** A column that the join copies from the left frame holds, for each
    left row, as many copies as the row has matches, and one if none. *)
Lemma merge_left_column {D : Type} (p : C → D) (p' : A → D) left right :
  (∀ a b, p (join a b) = p' a) →
  p <$> merge_left key_l key_r join left right =
  left ≫= (λ a, replicate (Nat.max 1 (length (hits a right))) (p' a)).
Proof.
  intros Hp. induction left as [|a left IH]; [done|].
  rewrite merge_left_cons, fmap_app, IH, bind_cons, merge_left_one. f_equal.
  destruct (hits a right) as [|b bs]; [by rewrite list_fmap_singleton, Hp|].
  rewrite <-list_fmap_compose.
  replace (Nat.max 1 (length (b :: bs))) with (length (b :: bs)) by (simpl; lia).
  generalize (b :: bs). intros l. induction l as [|b' l IHl]; [done|].
  rewrite fmap_cons. simpl. by rewrite Hp, IHl.
Qed.

Lemma hits_NoDup a right :
  NoDup (key_r <$> right) → length (hits a right) ≤ 1.
Proof.
  unfold matches. induction right as [|b right IH]; [simpl; lia|].
  rewrite fmap_cons, NoDup_cons. intros [Hb Hnd]. rewrite filter_cons.
  case_decide as Hk; [|auto]. simpl.
  assert (filter (λ b, key_r b = key_l a) right = []) as ->; [|simpl; lia].
  apply filter_none. intros b' Hb' Hk'. apply Hb.
  apply list_elem_of_fmap. exists b'. split; [congruence | done].
Qed.

(** With distinct keys on the right the merge is a map: one row out for
    each row in. *)
Lemma merge_left_NoDup left right :
  NoDup (key_r <$> right) →
  merge_left key_l key_r join left right =
  (λ a, join a (head (hits a right))) <$> left.
Proof.
  intros Hnd. induction left as [|a left IH]; [done|].
  rewrite merge_left_cons, IH, merge_left_one, fmap_cons.
  pose proof (hits_NoDup a right Hnd) as Hlen.
  destruct (hits a right) as [|b [|b' bs]]; simpl in *; [done | done | lia].
Qed.

Lemma merge_left_elem c left right :
  c ∈ merge_left key_l key_r join left right ↔
  ∃ a, a ∈ left ∧
       ((hits a right = [] ∧ c = join a None) ∨
        ∃ b, b ∈ hits a right ∧ c = join a (Some b)).
Proof.
  unfold merge_left. rewrite list_elem_of_bind. split.
  - intros (a & Hc & Ha). exists a. split; [done|].
    destruct (hits a right) as [|b bs] eqn:Hh.
    + left. apply list_elem_of_singleton in Hc. done.
    + right. apply list_elem_of_fmap in Hc as (b' & -> & Hb'). eauto.
  - intros (a & Ha & [[Hh ->]|(b & Hb & ->)]); exists a; (split; [|done]).
    + rewrite Hh. apply list_elem_of_singleton. done.
    + destruct (hits a right) as [|b0 bs] eqn:Hh; [by apply elem_of_nil in Hb|].
      apply list_elem_of_fmap. eauto.
Qed.

End merge.

(** ** The contains fallback *)

Section fallback.

Implicit Types (cat : Catalog) (res : ResFrame) (l keys models : list string).

Lemma elem_of_unique l x : x ∈ unique l ↔ x ∈ l.
Proof.
  induction l as [|y l IH]; [done|]. cbn [unique].
  rewrite !elem_of_cons, list_elem_of_filter, IH.
  destruct (decide (x = y)); naive_solver.
Qed.

Lemma NoDup_filter_str (P : string → Prop) `{!∀ x, Decision (P x)} l :
  NoDup l → NoDup (filter P l).
Proof.
  induction 1 as [|x l Hx Hnd IH]; [constructor|].
  rewrite filter_cons. case_decide; [|done].
  constructor; [|done]. rewrite list_elem_of_filter. tauto.
Qed.

Lemma NoDup_unique l : NoDup (unique l).
Proof.
  induction l as [|y l IH]; [constructor|]. cbn [unique].
  constructor; [|by apply NoDup_filter_str].
  rewrite list_elem_of_filter. tauto.
Qed.

Lemma contains_scan_cons cat key keys :
  contains_scan cat (key :: keys) =
  contains_scan cat [key] ++ contains_scan cat keys.
Proof. unfold contains_scan. by rewrite bind_singleton, bind_cons. Qed.

Lemma contains_scan_keys cat keys d :
  d ∈ contains_scan cat keys → hit_key d ∈ keys.
Proof.
  unfold contains_scan. rewrite list_elem_of_bind.
  intros (key & Hd & Hkey).
  destruct (filter _ (cat_rows cat)) as [|row ?]; [by apply elem_of_nil in Hd|].
  by apply list_elem_of_singleton in Hd as ->.
Qed.

Lemma contains_scan_NoDup cat keys :
  NoDup keys → NoDup (hit_key <$> contains_scan cat keys).
Proof.
  induction 1 as [|key keys Hkey Hnd IH]; [constructor|].
  rewrite contains_scan_cons, fmap_app.
  unfold contains_scan at 1. rewrite bind_singleton.
  destruct (filter _ (cat_rows cat)) as [|row ?]; [done|].
  rewrite list_fmap_singleton. cbn [app hit_key]. constructor; [|done].
  intros (d & -> & Hd%contains_scan_keys)%list_elem_of_fmap. done.
Qed.

(** The second merge keeps the query columns of every row: it adds and
    removes no row. *)
Lemma merge_contains_rows res keys cat :
  NoDup keys →
  res_rows (merge_contains res (contains_scan cat keys)) =
  (λ r, join_contains r
          (head (matches _key hit_key r (contains_scan cat keys))))
    <$> res_rows res.
Proof. intros Hnd. apply merge_left_NoDup. by apply contains_scan_NoDup. Qed.

Lemma contains_fallback_Ok cat res :
  has_MLP res = true → has_column (cat_columns cat) "Model" = true →
  ∃ res', contains_fallback cat res = Ok res' ∧ has_MLP res' = true ∧
    (res' = res ∨
     res_rows res' =
       (λ r, join_contains r
          (head (matches _key hit_key r
                   (contains_scan cat (missing_keys (res_rows res))))))
         <$> res_rows res).
Proof.
  intros HM Hcol. unfold contains_fallback. rewrite HM, Hcol. cbn [negb].
  destruct (existsb _ _); [|by eauto].
  destruct (contains_scan _ _) as [|d ds] eqn:Hscan; [by eauto|].
  eexists. split; [done|]. split; [done|]. right. rewrite <-Hscan.
  apply merge_contains_rows, NoDup_unique.
Qed.

Lemma serves_columns cat :
  serves cat = true →
  has_column (cat_columns cat) "Model" = true ∧
  has_column (cat_columns cat) "MLP" = true ∧
  has_column (cat_columns cat) "Model_in" = false.
Proof.
  unfold serves. rewrite !andb_true_iff, negb_true_iff. tauto.
Qed.

(** With the columns in place the engine returns a frame, whose rows are
    those of the final [res], and [res] has the query columns of the
    exact merge. *)
Lemma resolve_Ok cat allow_contains models :
  serves cat = true →
  ∃ res, resolve cat allow_contains models =
           Ok {| shows_Description := has_Description res;
                 display_rows := display_row (has_Model res) <$> res_rows res |} ∧
    Model_in <$> res_rows res = Model_in <$> res_rows (merge_exact cat models) ∧
    (allow_contains = false → res = merge_exact cat models).
Proof.
  intros (Hmodel & Hmlp & Hin)%serves_columns. unfold resolve.
  destruct allow_contains.
  - destruct (contains_fallback_Ok cat (merge_exact cat models))
      as (res' & -> & HM & Hrows); [done..|].
    exists res'. unfold display. rewrite Hin, HM. cbn [negb].
    split; [done|]. split; [|done].
    destruct Hrows as [-> | Hrows]; [done|]. rewrite Hrows.
    rewrite <-list_fmap_compose. by apply list_fmap_ext.
  - exists (merge_exact cat models). unfold display.
    rewrite Hin. cbn [merge_exact has_MLP]. rewrite Hmlp. done.
Qed.

Lemma merge_exact_Model_in cat models :
  Model_in <$> res_rows (merge_exact cat models) =
  models ≫= (λ m, replicate (entries_for cat m) m).
Proof.
  cbn [merge_exact res_rows].
  rewrite (merge_left_column _ _ _ Model_in fst) by done.
  unfold query_frame. by rewrite list_fmap_bind.
Qed.

Lemma bind_replicate_one {A : Type} (n : A → nat) (l : list A) :
  (∀ a, a ∈ l → n a = 1) → l ≫= (λ a, replicate (n a) a) = l.
Proof.
  induction l as [|a l IH]; intros Hn; [done|].
  rewrite bind_cons, Hn, IH; [done | | left].
  intros b Hb. apply Hn. by right.
Qed.

Lemma length_bind_replicate {A : Type} (n : A → nat) (l : list A) :
  length (l ≫= (λ a, replicate (n a) a)) = sum_list (n <$> l).
Proof.
  induction l as [|a l IH]; [done|].
  rewrite bind_cons, length_app, length_replicate, IH. done.
Qed.

Lemma entries_for_NoDup cat m :
  NoDup (cat_key <$> cat_rows cat) → entries_for cat m = 1.
Proof.
  intros Hnd. unfold entries_for, exact_hits.
  pose proof (hits_NoDup (A:=string) normalized cat_key m (cat_rows cat) Hnd) as H.
  unfold matches in H. lia.
Qed.

End fallback.

(** ** The claims about the engine *)

Example load_duplicate_source : load_catalog duplicate_source = Ok duplicate_catalog.
Proof. reflexivity. Qed.

Example load_blank_source : load_catalog blank_source = Ok blank_catalog.
Proof. reflexivity. Qed.

Example load_single_source : load_catalog single_source = Ok single_catalog.
Proof. reflexivity. Qed.

(** An exact match whatever the case of the pasted text, the pasted
    duplicate dropped; the catalogue's spelling of the model is shown. *)
Example lookup_exact :
  find_mlps single_source false false "prd-1001,PRD-1001" =
    Shown ["Model"; "MLP"; "Description"; "Status"]
      [ {| res_row := {| Model_in := "prd-1001"; _key := "PRD-1001";
                         Model := Some "PRD-1001"; MLP := Some "M1";
                         Description := Some "Widget" |};
           Model_shown := "PRD-1001"; Status := "OK" |} ].
Proof. vm_compute. reflexivity. Qed.

(** A key found by the contains scan only. *)
Example lookup_contains :
  find_mlps mixed_source false true "prd-2002" =
    Shown ["Model"; "MLP"; "Description"; "Status"]
      [ {| res_row := {| Model_in := "prd-2002"; _key := "PRD-2002";
                         Model := Some "ABC-PRD-2002-X"; MLP := Some "M9";
                         Description := Some "Gadget" |};
           Model_shown := "ABC-PRD-2002-X"; Status := "OK" |} ].
Proof. vm_compute. reflexivity. Qed.

(** Claim C2, as stated, fails: with two catalogue rows that normalize
    to the key of the one pasted model, the table shown has two entries
    for one query key. *)
Lemma two_entries_for_one_key :
  parse_models "PRD-1001" = ["PRD-1001"] ∧
  find_mlps duplicate_source false false "PRD-1001" =
    Shown ["Model"; "MLP"; "Description"; "Status"]
      [ {| res_row := {| Model_in := "PRD-1001"; _key := "PRD-1001";
                         Model := Some "PRD-1001"; MLP := Some "M1";
                         Description := Some "Widget" |};
           Model_shown := "PRD-1001"; Status := "OK" |};
        {| res_row := {| Model_in := "PRD-1001"; _key := "PRD-1001";
                         Model := Some " prd-1001"; MLP := Some "M2";
                         Description := Some "Other" |};
           Model_shown := " prd-1001"; Status := "OK" |} ].
Proof. split; vm_compute; reflexivity. Qed.

(** Claim C2, amended.  For every catalogue with the columns [Model] and
    [MLP] (and none called [Model_in]), every list of query keys and
    either setting of the contains option, [resolve] returns a frame
    with, for each query key in order, one entry per catalogue row whose
    normalized model is that key, and one entry if there is none; every
    entry has status "OK" or "Not found"; and when no two catalogue rows
    normalize to the same key the entries are exactly [len(keys)], one
    per query key. *)
Theorem resolve_entries (cat : Catalog) (allow_contains : bool)
    (models : list string) :
  serves cat = true →
  ∃ fr, resolve cat allow_contains models = Ok fr ∧
    (λ r, Model_in (res_row r)) <$> display_rows fr =
      models ≫= (λ m, replicate (entries_for cat m) m) ∧
    length (display_rows fr) = sum_list (entries_for cat <$> models) ∧
    Forall (λ r, Status r = "OK" ∨ Status r = "Not found") (display_rows fr) ∧
    (NoDup (cat_key <$> cat_rows cat) →
       length (display_rows fr) = length models ∧
       (λ r, Model_in (res_row r)) <$> display_rows fr = models).
Proof.
  intros Hs. destruct (resolve_Ok cat allow_contains models Hs) as (res & Hr & Hin & _).
  eexists. split; [exact Hr|]. cbn [display_rows].
  assert (Hcol : (λ r, Model_in (res_row r)) <$> (display_row (has_Model res) <$> res_rows res)
                 = models ≫= (λ m, replicate (entries_for cat m) m)).
  { rewrite <-list_fmap_compose, <-merge_exact_Model_in, <-Hin.
    by apply list_fmap_ext. }
  assert (Hlen : length (display_row (has_Model res) <$> res_rows res)
                 = sum_list (entries_for cat <$> models)).
  { rewrite <-length_bind_replicate, <-Hcol. by rewrite !length_fmap. }
  split; [done|]. split; [done|]. split.
  - apply Forall_fmap, Forall_forall. intros r _. cbn [display_row Status compose].
    unfold status_of. destruct (is_missing (MLP r)); auto.
  - intros Hnd. rewrite Hcol, Hlen.
    rewrite bind_replicate_one by (intros; by apply entries_for_NoDup).
    split; [|done]. rewrite <-length_bind_replicate.
    rewrite bind_replicate_one by (intros; by apply entries_for_NoDup). done.
Qed.

Lemma resolve_entries_witness :
  ∃ fr, resolve single_catalog true ["prd-1001"; "X-9"] = Ok fr ∧
    length (display_rows fr) = 2 ∧
    (λ r, Model_in (res_row r)) <$> display_rows fr = ["prd-1001"; "X-9"] ∧
    Forall (λ r, Status r = "OK" ∨ Status r = "Not found") (display_rows fr).
Proof.
  destruct (resolve_entries single_catalog true ["prd-1001"; "X-9"] eq_refl)
    as (fr & Hr & _ & _ & Hstatus & Hone).
  destruct Hone as [Hlen Hcol].
  - apply (bool_decide_unpack _). vm_compute. exact I.
  - exists fr. split; [exact Hr|]. split; [exact Hlen|]. split; [exact Hcol|].
    exact Hstatus.
Defined.

Section exact.

Implicit Types (cat : Catalog) (models : list string) (m k : string).

Lemma cell_has_column cols r name :
  has_column cols name = true → ∃ s, cell cols r name = Some s.
Proof.
  unfold has_column, cell. intros Hin%bool_decide_eq_true.
  destruct (list_find_elem_of (λ c, c = name) cols name Hin eq_refl) as [[i c] ->].
  eauto.
Qed.

(** The rows the exact merge gives one query key. *)
Lemma merge_exact_one cat m :
  merge_left snd cat_key (join_exact (cat_columns cat)) (query_frame [m]) (cat_rows cat) =
  match exact_hits cat m with
  | [] => [join_exact (cat_columns cat) (m, normalized m) None]
  | cs => (λ c, join_exact (cat_columns cat) (m, normalized m) (Some c)) <$> cs
  end.
Proof.
  exact (merge_left_one snd cat_key (join_exact (cat_columns cat))
           (m, normalized m) (cat_rows cat)).
Qed.

Lemma merge_exact_split cat l1 m l2 :
  res_rows (merge_exact cat (l1 ++ m :: l2)) =
  res_rows (merge_exact cat l1)
    ++ merge_left snd cat_key (join_exact (cat_columns cat)) (query_frame [m]) (cat_rows cat)
    ++ res_rows (merge_exact cat l2).
Proof.
  cbn [merge_exact res_rows]. unfold query_frame.
  rewrite fmap_app, fmap_cons, merge_left_app, merge_left_cons. done.
Qed.

Lemma merge_exact_elem cat models r :
  r ∈ res_rows (merge_exact cat models) ↔
  ∃ m, m ∈ models ∧
    ((exact_hits cat m = [] ∧ r = join_exact (cat_columns cat) (m, normalized m) None) ∨
     ∃ c, c ∈ exact_hits cat m ∧
          r = join_exact (cat_columns cat) (m, normalized m) (Some c)).
Proof.
  cbn [merge_exact res_rows]. rewrite merge_left_elem. unfold query_frame. split.
  - intros (a & (m & -> & Hm)%list_elem_of_fmap & H). exists m. split; [done|]. exact H.
  - intros (m & Hm & H). exists (m, Py.upper (Py.strip m)). split; [|exact H].
    apply list_elem_of_fmap. eauto.
Qed.

Lemma merge_exact_key cat models r :
  r ∈ res_rows (merge_exact cat models) →
  ∃ m, m ∈ models ∧ Model_in r = m ∧ _key r = normalized m.
Proof.
  rewrite merge_exact_elem. intros (m & Hm & [[_ ->]|(c & _ & ->)]); eauto.
Qed.

(** The rows of the exact merge with the key of [m], when no other query
    key has it: the rows of [m] alone. *)
Lemma merge_exact_filter cat models m :
  NoDup (normalized <$> models) → m ∈ models →
  filter (λ r, _key r = normalized m) (res_rows (merge_exact cat models)) =
  merge_left snd cat_key (join_exact (cat_columns cat)) (query_frame [m]) (cat_rows cat).
Proof.
  intros Hnd (l1 & l2 & ->)%list_elem_of_split.
  rewrite fmap_app, fmap_cons in Hnd.
  apply NoDup_app in Hnd as (_ & Hl1 & [Hl2 _]%NoDup_cons).
  rewrite merge_exact_split, !filter_app.
  rewrite (filter_none _ (res_rows (merge_exact cat l1))), (filter_none _ (res_rows (merge_exact cat l2))).
  - rewrite app_nil_r. cbn [app]. apply filter_all.
    intros r Hr. rewrite merge_exact_one in Hr.
    destruct (exact_hits cat m) as [|c cs].
    + by apply list_elem_of_singleton in Hr as ->.
    + by apply list_elem_of_fmap in Hr as (c' & -> & _).
  - intros r (m' & Hm' & _ & Hk)%merge_exact_key Heq. apply Hl2.
    apply list_elem_of_fmap. exists m'. split; [congruence | done].
  - intros r (m' & Hm' & _ & Hk)%merge_exact_key Heq. apply (Hl1 (normalized m)).
    + apply list_elem_of_fmap. exists m'. split; [congruence | done].
    + left.
Qed.

End exact.

Example exact_hits_duplicate :
  exact_hits duplicate_catalog "prd-1001 " = cat_rows duplicate_catalog.
Proof. reflexivity. Qed.

(** Claim C3, as stated, fails: with two catalogue rows normalizing to
    "PRD-1001", the second row is not shadowed; its values make up a
    second entry. *)
Lemma duplicate_row_not_shadowed :
  ∃ fr, resolve duplicate_catalog false ["PRD-1001"] = Ok fr ∧
    (λ r, (Model_shown r, MLP (res_row r), Description (res_row r)))
      <$> display_rows fr =
    [ ("PRD-1001", Some "M1", Some "Widget");
      (" prd-1001", Some "M2", Some "Other") ].
Proof. eexists. split; reflexivity. Qed.

(** Claim C3, amended.  When one or more catalogue rows normalize to the
    key of a query key, the exact lookup returns all of them: the
    entries of that key are, in catalogue order, one per such row, each
    with that row's [Model], [MLP] and [Description]; the first row's
    values come first and every later duplicate adds an entry of its
    own. *)
Theorem exact_lookup_all_rows (cat : Catalog) (models : list string) (m : string) :
  serves cat = true →
  NoDup (normalized <$> models) →
  m ∈ models →
  exact_hits cat m ≠ [] →
  ∃ fr, resolve cat false models = Ok fr ∧
    filter (λ r, _key r = normalized m) (res_row <$> display_rows fr) =
    (λ c, {| Model_in := m;
             _key := normalized m;
             Model := cell (cat_columns cat) (cells c) "Model";
             MLP := cell (cat_columns cat) (cells c) "MLP";
             Description := cell (cat_columns cat) (cells c) "Description" |})
      <$> exact_hits cat m.
Proof.
  intros Hs Hnd Hm Hhits.
  destruct (resolve_Ok cat false models Hs) as (res & Hr & _ & Hres).
  rewrite (Hres eq_refl) in Hr. eexists. split; [exact Hr|]. cbn [display_rows].
  rewrite <-list_fmap_compose.
  erewrite (list_fmap_ext _ id) by done.
  rewrite list_fmap_id, merge_exact_filter, merge_exact_one by done.
  by destruct (exact_hits cat m).
Qed.

Lemma exact_lookup_all_rows_witness :
  ∃ fr, resolve duplicate_catalog false ["x"; "prd-1001"] = Ok fr ∧
    filter (λ r, _key r = normalized "prd-1001") (res_row <$> display_rows fr) =
    (λ c, {| Model_in := "prd-1001";
             _key := normalized "prd-1001";
             Model := cell (cat_columns duplicate_catalog) (cells c) "Model";
             MLP := cell (cat_columns duplicate_catalog) (cells c) "MLP";
             Description :=
               cell (cat_columns duplicate_catalog) (cells c) "Description" |})
      <$> exact_hits duplicate_catalog "prd-1001".
Proof.
  apply (exact_lookup_all_rows duplicate_catalog ["x"; "prd-1001"] "prd-1001").
  - reflexivity.
  - apply (bool_decide_unpack _). vm_compute. exact I.
  - apply (bool_decide_unpack _). vm_compute. exact I.
  - vm_compute. discriminate.
Defined.

(** Claim C4, as stated, fails: the key "PRD-1001" has an exact
    catalogue row, whose [MLP] is blank; the contains scan runs for it all
    the same and binds the entry from another row. *)
Lemma exact_row_with_blank_mlp_is_scanned :
  exact_hits blank_catalog "PRD-1001" =
    [ {| cells := ["PRD-1001"; " "; "Widget"]; cat_key := "PRD-1001" |} ] ∧
  scanned blank_catalog ["PRD-1001"] = ["PRD-1001"] ∧
  ∃ fr, resolve blank_catalog true ["PRD-1001"] = Ok fr ∧
    display_rows fr =
      [ {| res_row := {| Model_in := "PRD-1001"; _key := "PRD-1001";
                         Model := Some "ABC-PRD-1001-X"; MLP := Some "M9";
                         Description := Some "Gadget" |};
           Model_shown := "ABC-PRD-1001-X"; Status := "OK" |} ].
Proof. split; [|split]; [reflexivity..|]. eexists. split; reflexivity. Qed.

(** Claim C4, amended.  The contains scan runs for exactly the
    normalized keys of the query keys that either have no exact catalogue
    row or have an exact row whose [MLP] is blank after trimming; a key
    whose exact rows all carry a non-blank [MLP] is never scanned. *)
Theorem scanned_iff (cat : Catalog) (models : list string) (k : string) :
  has_column (cat_columns cat) "MLP" = true →
  k ∈ scanned cat models ↔
  ∃ m, m ∈ models ∧ normalized m = k ∧
    (exact_hits cat m = [] ∨
     ∃ c s, c ∈ exact_hits cat m ∧
            cell (cat_columns cat) (cells c) "MLP" = Some s ∧ Py.strip s = "").
Proof.
  intros Hcol. unfold scanned, missing_keys.
  rewrite elem_of_unique, list_elem_of_fmap. split.
  - intros (r & -> & [Hmiss Hr]%list_elem_of_filter).
    apply merge_exact_elem in Hr as (m & Hm & [[Hh ->]|(c & Hc & ->)]);
      exists m; (split; [done|]); (split; [done|]); [by left|].
    right. destruct (cell_has_column _ (cells c) _ Hcol) as [s Hs].
    exists c, s. split; [done|]. split; [done|].
    cbn in Hmiss. rewrite Hs in Hmiss. cbn in Hmiss.
    by apply bool_decide_eq_true in Hmiss.
  - intros (m & Hm & <- & [Hh|(c & s & Hc & Hs & Hblank)]).
    + exists (join_exact (cat_columns cat) (m, normalized m) None).
      split; [done|]. apply list_elem_of_filter. split; [done|].
      apply merge_exact_elem. exists m. split; [done|]. by left.
    + exists (join_exact (cat_columns cat) (m, normalized m) (Some c)).
      split; [done|]. apply list_elem_of_filter. split.
      * cbn. rewrite Hs. cbn. by apply bool_decide_eq_true.
      * apply merge_exact_elem. exists m. split; [done|]. right. eauto.
Qed.

Lemma scanned_iff_witness :
  "PRD-1001" ∈ scanned blank_catalog ["prd-1001"; "ABC-PRD-1001-X"] ↔
  ∃ m, m ∈ ["prd-1001"; "ABC-PRD-1001-X"] ∧ normalized m = "PRD-1001" ∧
    (exact_hits blank_catalog m = [] ∨
     ∃ c s, c ∈ exact_hits blank_catalog m ∧
            cell (cat_columns blank_catalog) (cells c) "MLP" = Some s ∧
            Py.strip s = "").
Proof.
  apply (scanned_iff blank_catalog ["prd-1001"; "ABC-PRD-1001-X"] "PRD-1001").
  reflexivity.
Defined.

Example scanned_blank_only :
  scanned blank_catalog ["prd-1001"; "ABC-PRD-1001-X"] = ["PRD-1001"].
Proof. reflexivity. Qed.

(** Claim C5, as stated, fails in its second half: the exact row of
    "PRD-7" has an empty [MLP], yet with the contains option set the
    entry of that key has status "OK". *)
Lemma blank_exact_mlp_reported_ok :
  find_mlps empty_mlp_source false true "PRD-7" =
    Shown ["Model"; "MLP"; "Description"; "Status"]
      [ {| res_row := {| Model_in := "PRD-7"; _key := "PRD-7";
                         Model := Some "XPRD-70"; MLP := Some "M3";
                         Description := Some "Long" |};
           Model_shown := "XPRD-70"; Status := "OK" |} ] ∧
  find_mlps empty_mlp_source false false "PRD-7" =
    Shown ["Model"; "MLP"; "Description"; "Status"]
      [ {| res_row := {| Model_in := "PRD-7"; _key := "PRD-7";
                         Model := Some "prd-7"; MLP := Some "";
                         Description := Some "Short" |};
           Model_shown := "prd-7"; Status := "Not found" |} ].
Proof. split; vm_compute; reflexivity. Qed.

(** Claim C5, amended.  Every entry [resolve] returns has status "OK" if
    and only if its [MLP] is bound and not empty after trimming, and
    "Not found" otherwise; in particular, with the contains option off,
    a query key whose exact catalogue row has a blank [MLP] gets an entry
    with that blank [MLP] and status "Not found". *)
Theorem status_iff (cat : Catalog) (allow_contains : bool) (models : list string) :
  serves cat = true →
  ∃ fr fr0,
    resolve cat allow_contains models = Ok fr ∧
    resolve cat false models = Ok fr0 ∧
    (∀ r, r ∈ display_rows fr →
       (Status r = "OK" ↔ ∃ s, MLP (res_row r) = Some s ∧ Py.strip s ≠ "") ∧
       (Status r ≠ "OK" → Status r = "Not found")) ∧
    (∀ m c s, m ∈ models → c ∈ exact_hits cat m →
       cell (cat_columns cat) (cells c) "MLP" = Some s → Py.strip s = "" →
       ∃ r, r ∈ display_rows fr0 ∧ Model_in (res_row r) = m ∧
            MLP (res_row r) = Some s ∧ Status r = "Not found").
Proof.
  intros Hs.
  destruct (resolve_Ok cat allow_contains models Hs) as (res & Hr & _ & _).
  destruct (resolve_Ok cat false models Hs) as (res0 & Hr0 & _ & Hres0).
  rewrite (Hres0 eq_refl) in Hr0. clear Hres0 res0.
  eexists _, _. split; [exact Hr|]. split; [exact Hr0|]. cbn [display_rows]. split.
  - intros r (r' & -> & _)%list_elem_of_fmap. cbn [display_row Status res_row].
    unfold status_of. destruct (MLP r') as [s|]; cbn [is_missing].
    + case_bool_decide as Hb; split.
      * split; [discriminate|]. intros (s' & [= <-] & Hne). done.
      * done.
      * split; [eauto | done].
      * done.
    + split; [|done]. split; [discriminate|]. by intros (s' & [=] & _).
  - intros m c s Hm Hc Hcell Hblank.
    exists (display_row (has_Model (merge_exact cat models))
              (join_exact (cat_columns cat) (m, normalized m) (Some c))).
    split.
    + apply list_elem_of_fmap. eexists. split; [done|].
      apply merge_exact_elem. exists m. split; [done|]. right. eauto.
    + cbn. rewrite Hcell. cbn. split; [done|]. split; [done|].
      unfold status_of. cbn. by rewrite bool_decide_eq_true_2.
Qed.

Lemma status_iff_witness :
  ∃ fr fr0,
    resolve blank_catalog true ["PRD-1001"; "Q"] = Ok fr ∧
    resolve blank_catalog false ["PRD-1001"; "Q"] = Ok fr0 ∧
    (∀ r, r ∈ display_rows fr →
       (Status r = "OK" ↔ ∃ s, MLP (res_row r) = Some s ∧ Py.strip s ≠ "") ∧
       (Status r ≠ "OK" → Status r = "Not found")) ∧
    (∀ m c s, m ∈ ["PRD-1001"; "Q"] → c ∈ exact_hits blank_catalog m →
       cell (cat_columns blank_catalog) (cells c) "MLP" = Some s →
       Py.strip s = "" →
       ∃ r, r ∈ display_rows fr0 ∧ Model_in (res_row r) = m ∧
            MLP (res_row r) = Some s ∧ Status r = "Not found").
Proof. apply (status_iff blank_catalog true ["PRD-1001"; "Q"]). reflexivity. Defined.

Section order.

Implicit Types (cat : Catalog) (models : list string).

Lemma resolve_column cat allow_contains models :
  serves cat = true →
  ∃ fr, resolve cat allow_contains models = Ok fr ∧
    (λ r, Model_in (res_row r)) <$> display_rows fr =
    models ≫= (λ m, replicate (entries_for cat m) m).
Proof.
  intros Hs. destruct (resolve_Ok cat allow_contains models Hs) as (res & Hr & Hin & _).
  eexists. split; [exact Hr|]. cbn [display_rows].
  rewrite <-list_fmap_compose, <-merge_exact_Model_in, <-Hin.
  by apply list_fmap_ext.
Qed.

Lemma elem_of_bind_replicate {A : Type} (n : A → nat) (l : list A) x :
  x ∈ l ≫= (λ a, replicate (n a) a) → x ∈ l.
Proof.
  intros (a & Hx%elem_of_replicate_inv & Ha)%list_elem_of_bind. by subst.
Qed.

Lemma lookup_app_order {A : Type} (p q : list A) (a b : A) i j :
  a ∉ q → b ∉ p → (p ++ q) !! i = Some a → (p ++ q) !! j = Some b → i < j.
Proof.
  intros Ha Hb [Hi|[_ Hi]]%lookup_app_Some [Hj|[Hlen Hj]]%lookup_app_Some.
  - destruct Hb. by eapply list_elem_of_lookup_2.
  - apply lookup_lt_Some in Hi. lia.
  - destruct Ha. by eapply list_elem_of_lookup_2.
  - destruct Ha. by eapply list_elem_of_lookup_2.
Qed.

Lemma parse_models_NoDup raw : NoDup (parse_models raw).
Proof.
  rewrite parse_models_first. apply (NoDup_fmap_1 Py.upper), first_by_key_NoDup.
Qed.

Lemma normalized_fresh raw l t :
  l ⊆ trimmed_tokens raw → t ∈ trimmed_tokens raw →
  Forall (λ u, normalized u ≠ normalized t) l →
  Forall (λ u, Py.upper u ≠ Py.upper t) l.
Proof.
  intros Hl Ht. rewrite !Forall_forall. intros H u Hu.
  rewrite <-(trimmed_tokens_normalized raw u), <-(trimmed_tokens_normalized raw t); auto.
Qed.

(** The parser keeps two first occurrences in the order of the input. *)
Lemma parse_models_order raw l1 a l2 b l3 :
  trimmed_tokens raw = l1 ++ a :: l2 ++ b :: l3 →
  Forall (λ u, normalized u ≠ normalized a) l1 →
  Forall (λ u, normalized u ≠ normalized b) (l1 ++ a :: l2) →
  ∃ o1 o2 o3, parse_models raw = o1 ++ a :: o2 ++ b :: o3.
Proof.
  intros Heq Ha Hb.
  apply (normalized_fresh raw) in Ha; [| rewrite Heq; set_solver..].
  apply (normalized_fresh raw) in Hb; [| rewrite Heq; set_solver..].
  rewrite parse_models_first, Heq.
  apply Forall_app in Hb as [Hb1 [Hba Hb2]%Forall_cons].
  apply upper_fresh_in in Ha, Hb1, Hb2.
  rewrite first_by_key_app, first_by_key_cons_fresh by set_solver.
  rewrite first_by_key_app, first_by_key_cons_fresh by set_solver.
  eauto.
Qed.

End order.

(** Claim C8.  If the trimmed token [a] first appears in the input before
    the first appearance of the trimmed token [b], then [a] precedes [b]
    in the output of [parse_models]; and [resolve] keeps that order: its
    rows follow the query keys in order, and every entry for [a] comes
    before every entry for [b]. *)
Theorem order_preserved (raw : string) (l1 l2 l3 : list string) (a b : string)
    (cat : Catalog) (allow_contains : bool) :
  trimmed_tokens raw = l1 ++ a :: l2 ++ b :: l3 →
  Forall (λ u, normalized u ≠ normalized a) l1 →
  Forall (λ u, normalized u ≠ normalized b) (l1 ++ a :: l2) →
  serves cat = true →
  (∃ o1 o2 o3, parse_models raw = o1 ++ a :: o2 ++ b :: o3) ∧
  ∃ fr, resolve cat allow_contains (parse_models raw) = Ok fr ∧
    (λ r, Model_in (res_row r)) <$> display_rows fr =
      parse_models raw ≫= (λ m, replicate (entries_for cat m) m) ∧
    ∀ i j ri rj,
      display_rows fr !! i = Some ri → display_rows fr !! j = Some rj →
      Model_in (res_row ri) = a → Model_in (res_row rj) = b → i < j.
Proof.
  intros Heq Ha Hb Hs.
  destruct (parse_models_order raw l1 a l2 b l3 Heq Ha Hb) as (o1 & o2 & o3 & Hp).
  split; [eauto|].
  destruct (resolve_column cat allow_contains (parse_models raw) Hs) as (fr & Hr & Hcol).
  exists fr. split; [done|]. split; [done|].
  intros i j ri rj Hi Hj Hai Hbj.
  apply (f_equal (fmap (λ r, Model_in (res_row r)))) in Hi, Hj.
  rewrite <-list_lookup_fmap, Hcol in Hi, Hj. cbn in Hi, Hj. rewrite Hai in Hi. rewrite Hbj in Hj.
  pose proof (parse_models_NoDup raw) as Hnd. rewrite Hp in Hnd, Hi, Hj.
  apply NoDup_app in Hnd as (_ & Ho1 & (Ha' & Hnd)%NoDup_cons).
  apply NoDup_app in Hnd as (_ & Ho2 & (Hb' & _)%NoDup_cons).
  assert (Hsplit : o1 ++ a :: o2 ++ b :: o3 = (o1 ++ a :: o2) ++ b :: o3)
    by (by rewrite <-app_assoc).
  rewrite Hsplit, bind_app in Hi, Hj.
  eapply lookup_app_order; [| |exact Hi|exact Hj].
  - intros Hx%elem_of_bind_replicate. set_solver.
  - intros Hx%elem_of_bind_replicate. set_solver.
Qed.

Lemma order_preserved_witness :
  (∃ o1 o2 o3, parse_models "x, b ;A,B,a" = o1 ++ "b" :: o2 ++ "A" :: o3) ∧
  ∃ fr, resolve duplicate_catalog true (parse_models "x, b ;A,B,a") = Ok fr ∧
    (λ r, Model_in (res_row r)) <$> display_rows fr =
      parse_models "x, b ;A,B,a"
        ≫= (λ m, replicate (entries_for duplicate_catalog m) m) ∧
    ∀ i j ri rj,
      display_rows fr !! i = Some ri → display_rows fr !! j = Some rj →
      Model_in (res_row ri) = "b" → Model_in (res_row rj) = "A" → i < j.
Proof.
  apply (order_preserved "x, b ;A,B,a" ["x"] [] ["B"; "a"] "b" "A"
           duplicate_catalog true).
  - reflexivity.
  - apply (bool_decide_unpack _). vm_compute. exact I.
  - apply (bool_decide_unpack _). vm_compute. exact I.
  - reflexivity.
Defined.

(** Claim C1: the claim holds of the design the handler announces (the
    fallback is "for them", the keys not found), and the code breaks it.
    With the contains option off the exact match of "PRD-1001" is shown;
    with it on, once the scan finds a row for the other key, the second
    merge drops the columns of every row, and the exact match of
    "PRD-1001" is gone: its entry has no [MLP] and status "Not found". *)
Theorem contains_merge_drops_exact_match :
  find_mlps mixed_source false false "PRD-1001,PRD-2002" =
    Shown ["Model"; "MLP"; "Description"; "Status"]
      [ {| res_row := {| Model_in := "PRD-1001"; _key := "PRD-1001";
                         Model := Some "PRD-1001"; MLP := Some "M1";
                         Description := Some "Widget" |};
           Model_shown := "PRD-1001"; Status := "OK" |};
        {| res_row := {| Model_in := "PRD-2002"; _key := "PRD-2002";
                         Model := None; MLP := None; Description := None |};
           Model_shown := "PRD-2002"; Status := "Not found" |} ] ∧
  find_mlps mixed_source false true "PRD-1001,PRD-2002" =
    Shown ["Model"; "MLP"; "Description"; "Status"]
      [ {| res_row := {| Model_in := "PRD-1001"; _key := "PRD-1001";
                         Model := None; MLP := None; Description := None |};
           Model_shown := "PRD-1001"; Status := "Not found" |};
        {| res_row := {| Model_in := "PRD-2002"; _key := "PRD-2002";
                         Model := Some "ABC-PRD-2002-X"; MLP := Some "M9";
                         Description := Some "Gadget" |};
           Model_shown := "ABC-PRD-2002-X"; Status := "OK" |} ].
Proof. split; vm_compute; reflexivity. Qed.

(** Claim C6: the catalogue file with the [Model] column alone loads,
    but no lookup against it returns entries: without the contains
    option the status step calls [apply] on the default string, with it
    the missing mask reads a column that is not there. *)
Theorem lookup_fails_without_mlp_column :
  (∃ cat, load_catalog model_only_source = Ok cat ∧
          cat_columns cat = ["Model"]) ∧
  find_mlps model_only_source false false "PRD-1001" =
    Raised (AttributeError "'str' object has no attribute 'apply'") ∧
  find_mlps model_only_source false true "PRD-1001" = Raised (KeyError "MLP").
Proof. split; [eexists; split; reflexivity|]. split; vm_compute; reflexivity. Qed.

(** Without [Description] alone the lookup goes through and the column
    is left out of the table. *)
Example lookup_without_description :
  find_mlps no_description_source false false "prd-1001" =
    Shown ["Model"; "MLP"; "Status"]
      [ {| res_row := {| Model_in := "prd-1001"; _key := "PRD-1001";
                         Model := Some "PRD-1001"; MLP := Some "M1";
                         Description := None |};
           Model_shown := "PRD-1001"; Status := "OK" |} ].
Proof. vm_compute. reflexivity. Qed.

(** Any catalogue without the [MLP] column fails every lookup. *)
Lemma resolve_without_mlp_column (cat : Catalog) (allow_contains : bool)
    (models : list string) :
  has_column (cat_columns cat) "MLP" = false →
  raises (resolve cat allow_contains models).
Proof.
  intros H. unfold resolve, contains_fallback, display.
  cbn [merge_exact has_MLP]. rewrite H.
  destruct allow_contains; cbn [negb]; [done|].
  destruct (has_column (cat_columns cat) "Model_in"); [done|].
  cbn [merge_exact has_MLP]. by rewrite H.
Qed.

(** Claim C9.  For every input that is empty or made of white space,
    [parse_models] returns the empty list, and the handler, whatever the
    loaded catalogue and the options, stops with the warning that asks
    for input: nothing is raised. *)
Theorem blank_input_no_keys (raw : string) (source : Table) (cat : Catalog)
    (show_only_not_found allow_contains : bool) :
  Py.all_space raw = true →
  load_catalog source = Ok cat →
  parse_models raw = [] ∧
  find_mlps source show_only_not_found allow_contains raw =
    Stopped "Please paste at least one model.".
Proof.
  intros Hraw Hload.
  assert (Hparse : parse_models raw = []).
  { unfold parse_models. rewrite bool_decide_eq_true_2; [done|].
    by apply strip_empty_iff. }
  split; [done|]. unfold find_mlps. by rewrite Hload, Hparse.
Qed.

Lemma blank_input_no_keys_witness :
  parse_models "   " = [] ∧
  find_mlps model_only_source true true "   " =
    Stopped "Please paste at least one model.".
Proof.
  apply (blank_input_no_keys "   " model_only_source
           {| cat_columns := ["Model"];
              cat_rows := [ {| cells := ["PRD-1001"]; cat_key := "PRD-1001" |} ] |}).
  - reflexivity.
  - reflexivity.
Defined.

Example empty_input_no_keys : parse_models "" = [].
Proof. reflexivity. Qed.

(** Claim C10.  [load_catalog] raises, with the error that names the
    missing column, exactly when the header of the source has no column
    called [Model], the name being compared as it is spelled; with that
    column present it returns the catalogue, one row per row of the
    source. *)
Theorem load_catalog_schema (source : Table) :
  (raises (load_catalog source) ↔ "Model" ∉ columns source) ∧
  (load_catalog source =
     Raise (ValueError "products.csv must have a 'Model' column")
   ↔ "Model" ∉ columns source) ∧
  ((∃ cat, load_catalog source = Ok cat ∧
           cat_columns cat = columns source ∧
           length (cat_rows cat) = length (rows source))
   ↔ "Model" ∈ columns source).
Proof.
  unfold load_catalog, has_column.
  case_bool_decide as H; cbn [raises]; (split; [|split]); split; try done.
  - intros _. eexists. split; [done|]. split; [done|].
    cbn [cat_rows]. by rewrite !length_fmap.
  - by intros (cat & [=] & _).
Qed.

(** The name is compared as spelled: a header with [model] does not load. *)
Example load_lowercase_source :
  load_catalog lowercase_source =
    Raise (ValueError "products.csv must have a 'Model' column").
Proof. reflexivity. Qed.

(** * Further properties of the code *)

(** ** Normalization *)

Section normal_form.

Lemma is_space_upper_char c : Py.is_space (Py.upper_char c) = Py.is_space c.
Proof. destruct c as [[] [] [] [] [] [] [] []]; reflexivity. Qed.

Lemma upper_char_idemp c : Py.upper_char (Py.upper_char c) = Py.upper_char c.
Proof. destruct c as [[] [] [] [] [] [] [] []]; reflexivity. Qed.

Lemma upper_idemp s : Py.upper (Py.upper s) = Py.upper s.
Proof.
  induction s as [|c s IH]; [done|]. cbn [Py.upper]. by rewrite upper_char_idemp, IH.
Qed.

Lemma upper_lstrip s : Py.upper (Py.lstrip s) = Py.lstrip (Py.upper s).
Proof.
  induction s as [|c s IH]; [done|]. cbn [Py.upper Py.lstrip].
  rewrite is_space_upper_char. by destruct (Py.is_space c).
Qed.

Lemma upper_rstrip s : Py.upper (Py.rstrip s) = Py.rstrip (Py.upper s).
Proof.
  induction s as [|c s IH]; [done|]. cbn [Py.upper Py.rstrip].
  rewrite <-IH, is_space_upper_char.
  destruct (Py.rstrip s); [by destruct (Py.is_space c) | done].
Qed.

Lemma upper_strip s : Py.upper (Py.strip s) = Py.strip (Py.upper s).
Proof. unfold Py.strip. by rewrite upper_rstrip, upper_lstrip. Qed.

Lemma normalized_idemp t : normalized (normalized t) = normalized t.
Proof.
  unfold normalized. by rewrite <-upper_strip, strip_idemp, upper_idemp.
Qed.

Lemma normalized_upper t : normalized (Py.upper t) = normalized t.
Proof. unfold normalized. by rewrite <-upper_strip, upper_idemp. Qed.

Lemma normalized_of_strip t : normalized (Py.strip t) = normalized t.
Proof. unfold normalized. by rewrite strip_idemp. Qed.

End normal_form.

(** Property X1.
    Matching ignores case and the white space around a text: the
    normalized form of a text is that of its upper-cased form and that of
    its trimmed form, and normalizing twice changes nothing. *)
Theorem normalized_insensitive (t : string) :
  normalized (Py.upper t) = normalized t ∧
  normalized (Py.strip t) = normalized t ∧
  normalized (normalized t) = normalized t ∧
  Py.strip (normalized t) = normalized t.
Proof.
  split; [apply normalized_upper|]. split; [apply normalized_of_strip|].
  split; [apply normalized_idemp|].
  unfold normalized. by rewrite upper_strip, strip_idemp.
Qed.

(** ** The parser's output *)

Section parser.

Implicit Types (l : list string) (t s : string).

Lemma re_split_nonempty s : Py.re_split s ≠ [].
Proof.
  destruct s as [|c s]; [done|]. cbn [Py.re_split].
  destruct (Py.is_delim c); [done|]. by destruct (Py.re_split s).
Qed.

Lemma re_split_no_delim s : Forall (λ t, no_delim t = true) (Py.re_split s).
Proof.
  induction s as [|c s IH]; cbn [Py.re_split]; [by repeat constructor|].
  destruct (Py.is_delim c) eqn:Hc; [by constructor|].
  destruct (Py.re_split s) as [|t ts].
  - repeat constructor. cbn [no_delim]. by rewrite Hc.
  - inversion_clear IH as [|? ? Ht Hts].
    constructor; [|done]. cbn [no_delim]. by rewrite Hc, Ht.
Qed.

Lemma no_delim_lstrip t : no_delim t = true → no_delim (Py.lstrip t) = true.
Proof.
  induction t as [|c t IH]; [done|]. cbn [Py.lstrip].
  destruct (Py.is_space c); [|done].
  cbn [no_delim]. intros [_ H]%andb_true_iff. auto.
Qed.

Lemma no_delim_rstrip t : no_delim t = true → no_delim (Py.rstrip t) = true.
Proof.
  induction t as [|c t IH]; [done|]. cbn [no_delim Py.rstrip].
  intros [Hc Ht]%andb_true_iff. specialize (IH Ht).
  destruct (Py.rstrip t) as [|d r].
  - destruct (Py.is_space c); [done|]. cbn [no_delim]. by rewrite Hc.
  - change (no_delim (String c (String d r)))
      with (negb (Py.is_delim c) && no_delim (String d r)).
    by rewrite Hc, IH.
Qed.

Lemma no_delim_strip t : no_delim t = true → no_delim (Py.strip t) = true.
Proof. intros H. by apply no_delim_rstrip, no_delim_lstrip. Qed.

Lemma trimmed_tokens_elem raw t :
  t ∈ trimmed_tokens raw → t ≠ "" ∧ Py.strip t = t ∧ no_delim t = true.
Proof.
  intros Ht. split; [|split].
  - by apply list_elem_of_filter in Ht as [? _].
  - by eapply trimmed_tokens_strip.
  - apply list_elem_of_filter in Ht as [_ (x & -> & Hx)%list_elem_of_fmap].
    apply no_delim_strip.
    pose proof (re_split_no_delim raw) as Hall. rewrite Forall_forall in Hall. auto.
Qed.

Lemma first_by_key_nil_iff l : first_by_key ∅ l = [] ↔ l = [].
Proof.
  split; [|by intros ->]. destruct l as [|t l]; [done|]. cbn [first_by_key].
  rewrite bool_decide_eq_false_2; [done | apply not_elem_of_empty].
Qed.

Lemma trimmed_tokens_nil_iff raw :
  trimmed_tokens raw = [] ↔ Forall (λ t, Py.all_space t = true) (Py.re_split raw).
Proof.
  unfold trimmed_tokens. generalize (Py.re_split raw). intros l.
  induction l as [|t l IH]; [by split; [constructor|]|].
  rewrite fmap_cons, filter_cons, Forall_cons, <-IH, <-strip_empty_iff.
  case_decide as Ht; split.
  - done.
  - by intros [? _].
  - intros H. split; [|done]. by destruct (decide (Py.strip t = "")).
  - by intros [_ ?].
Qed.

Lemma re_split_all_space_iff s :
  Forall (λ t, Py.all_space t = true) (Py.re_split s) ↔ only_separators s = true.
Proof.
  induction s as [|c s IH]; cbn [Py.re_split only_separators].
  - split; [done | by repeat constructor].
  - destruct (Py.is_delim c) eqn:Hc.
    + rewrite Forall_cons, IH, orb_true_r. cbn. tauto.
    + rewrite orb_false_r, andb_true_iff, <-IH.
      pose proof (re_split_nonempty s) as Hne.
      destruct (Py.re_split s) as [|t ts]; [done|].
      rewrite !Forall_cons. cbn [Py.all_space]. rewrite andb_true_iff. tauto.
Qed.

Lemma append_cons c s r : String c s +:+ r = String c (s +:+ r).
Proof. done. Qed.

Lemma re_split_one t : no_delim t = true → Py.re_split t = [t].
Proof.
  induction t as [|c t IH]; [done|]. cbn [no_delim Py.re_split].
  intros [Hc Ht]%andb_true_iff. apply negb_true_iff in Hc. by rewrite Hc, IH.
Qed.

Lemma re_split_line t rest :
  no_delim t = true →
  Py.re_split (t +:+ newline +:+ rest) = t :: Py.re_split rest.
Proof.
  induction t as [|c t IH]; [done|]. cbn [no_delim].
  intros [Hc Ht]%andb_true_iff. apply negb_true_iff in Hc.
  rewrite append_cons. cbn [Py.re_split]. by rewrite Hc, IH.
Qed.

Lemma re_split_join l :
  l ≠ [] → Forall (λ t, no_delim t = true) l → Py.re_split (join newline l) = l.
Proof.
  intros Hne Hall. induction Hall as [|t l Ht Hl IH]; [done|].
  destruct l as [|t' l]; [by apply re_split_one|].
  change (join newline (t :: t' :: l)) with (t +:+ newline +:+ join newline (t' :: l)).
  by rewrite re_split_line, IH.
Qed.

Lemma first_by_key_id seen l :
  NoDup (Py.upper <$> l) → (∀ t, t ∈ l → Py.upper t ∉ seen) →
  first_by_key seen l = l.
Proof.
  revert seen. induction l as [|t l IH]; intros seen Hnd Hseen; [done|].
  rewrite fmap_cons in Hnd. apply NoDup_cons in Hnd as [Ht Hnd].
  rewrite first_by_key_cons_fresh by (apply Hseen; left). f_equal.
  apply IH; [done|]. intros u Hu [Heq%elem_of_singleton|Hin]%elem_of_union.
  - apply Ht, list_elem_of_fmap. eauto.
  - by apply (Hseen u); [right|].
Qed.

Lemma trimmed_tokens_join l :
  Forall (λ t, t ≠ "" ∧ Py.strip t = t ∧ no_delim t = true) l →
  trimmed_tokens (join newline l) = l.
Proof.
  intros Hall. destruct (decide (l = [])) as [->|Hne]; [done|].
  unfold trimmed_tokens. rewrite re_split_join; [|done|].
  - clear Hne. induction Hall as [|t l (Ht & Hs & _) _ IH]; [done|].
    rewrite fmap_cons, filter_cons, Hs, decide_True by done. by rewrite IH.
  - eapply Forall_impl; [exact Hall|]. by intros t (_ & _ & ?).
Qed.

Lemma parse_models_elem raw t :
  t ∈ parse_models raw → t ≠ "" ∧ Py.strip t = t ∧ no_delim t = true.
Proof.
  rewrite parse_models_first. intros Ht%first_by_key_subseteq.
  by eapply trimmed_tokens_elem.
Qed.

End parser.

(** Property X2.
    Every key [parse_models] returns is non-empty, carries no white
    space at either end and contains none of the delimiters. *)
Theorem parse_models_clean (raw t : string) :
  t ∈ parse_models raw →
  t ≠ "" ∧ Py.strip t = t ∧ no_delim t = true.
Proof. apply parse_models_elem. Qed.

Lemma parse_models_clean_witness :
  "b c" ≠ "" ∧ Py.strip "b c" = "b c" ∧ no_delim "b c" = true.
Proof.
  apply (parse_models_clean " a ;, b c	,A" "b c").
  apply (bool_decide_unpack _). vm_compute. exact I.
Defined.

(** Property X3.
    [parse_models] returns the empty list, so that the handler stops with
    its warning, exactly when the text holds nothing but white space and
    delimiters. *)
Theorem parse_models_nil_iff (raw : string) :
  parse_models raw = [] ↔ only_separators raw = true.
Proof.
  rewrite parse_models_first, first_by_key_nil_iff, trimmed_tokens_nil_iff.
  apply re_split_all_space_iff.
Qed.

(** Property X4.
    Parsing is idempotent: the keys returned, written one per line and
    parsed again, come back unchanged. *)
Theorem parse_models_idempotent (raw : string) :
  parse_models (join newline (parse_models raw)) = parse_models raw.
Proof.
  rewrite (parse_models_first (join newline _)), trimmed_tokens_join.
  - rewrite parse_models_first. apply first_by_key_id.
    + apply first_by_key_NoDup.
    + intros t _. apply not_elem_of_empty.
  - apply Forall_forall. intros t Ht. by eapply parse_models_elem.
Qed.

(** ** The loaded catalogue *)

Section catalogue.

Implicit Types (source : Table) (cat : Catalog) (s k : string).

Lemma load_catalog_Ok source cat :
  load_catalog source = Ok cat →
  has_column (columns source) "Model" = true ∧
  cat = {| cat_columns := columns source;
           cat_rows :=
             (λ r, {| cells := r;
                      cat_key :=
                        normalized (default "" (cell (columns source) r "Model")) |})
               <$> (fillna <$> rows source) |}.
Proof.
  unfold load_catalog. destruct (has_column (columns source) "Model"); [|done].
  by intros [= <-].
Qed.

Lemma contains_unfold s k :
  Py.contains s k =
  String.prefix k s || match s with EmptyString => false | String _ s' => Py.contains s' k end.
Proof. by destruct s. Qed.

Lemma contains_prefix s k : String.prefix k s = true → Py.contains s k = true.
Proof. intros H. by rewrite contains_unfold, H. Qed.

Lemma contains_cons c s k : Py.contains s k = true → Py.contains (String c s) k = true.
Proof. intros H. rewrite contains_unfold, H. apply orb_true_r. Qed.

Lemma contains_lstrip s k : Py.contains (Py.lstrip s) k = true → Py.contains s k = true.
Proof.
  induction s as [|c s IH]; [done|]. cbn [Py.lstrip].
  destruct (Py.is_space c); [|done]. intros H. by apply contains_cons, IH.
Qed.

Lemma prefix_rstrip s : String.prefix (Py.rstrip s) s = true.
Proof.
  induction s as [|c s IH]; [done|]. cbn [Py.rstrip].
  destruct (Py.rstrip s) as [|d r].
  - destruct (Py.is_space c); [done|]. cbn. destruct (ascii_dec c c); [|done].
    by destruct s.
  - change (String.prefix (String c (String d r)) (String c s))
      with (if ascii_dec c c then String.prefix (String d r) s else false).
    by destruct (ascii_dec c c).
Qed.

(** A text contains what is left of it after trimming. *)
Lemma contains_strip s : Py.contains s (Py.strip s) = true.
Proof. apply contains_lstrip, contains_prefix, prefix_rstrip. Qed.

Lemma contains_normalized s : Py.contains (Py.upper s) (normalized s) = true.
Proof. unfold normalized. rewrite upper_strip. apply contains_strip. Qed.

End catalogue.

(** Property X5.
    [load_catalog] keeps the header and the rows of the file in order,
    with every missing cell turned into the empty text, and gives each
    row the normalized form of its [Model] cell as key; that key is
    itself in normal form. *)
Theorem load_catalog_rows (source : Table) (cat : Catalog) :
  load_catalog source = Ok cat →
  cat_columns cat = columns source ∧
  cells <$> cat_rows cat = (λ r, default "" <$> r) <$> rows source ∧
  ∀ c, c ∈ cat_rows cat →
    (∃ model, cell (cat_columns cat) (cells c) "Model" = Some model ∧
              cat_key c = normalized model) ∧
    normalized (cat_key c) = cat_key c.
Proof.
  intros (Hcol & ->)%load_catalog_Ok. cbn [cat_columns cat_rows].
  split; [done|]. split.
  - rewrite <-!list_fmap_compose. by apply list_fmap_ext.
  - intros c (r & -> & _)%list_elem_of_fmap. cbn [cells cat_key].
    destruct (cell_has_column _ r _ Hcol) as [model Hm]. rewrite Hm. cbn [default].
    split; [eauto | apply normalized_idemp].
Qed.

Lemma load_catalog_rows_witness :
  cat_columns blank_catalog = columns blank_source ∧
  cells <$> cat_rows blank_catalog = (λ r, default "" <$> r) <$> rows blank_source ∧
  ∀ c, c ∈ cat_rows blank_catalog →
    (∃ model, cell (cat_columns blank_catalog) (cells c) "Model" = Some model ∧
              cat_key c = normalized model) ∧
    normalized (cat_key c) = cat_key c.
Proof. apply (load_catalog_rows blank_source blank_catalog). reflexivity. Defined.

(** Property X6.
    In a loaded catalogue a row that matches a key exactly is among the
    rows the contains scan finds for that key: the scan of a key that
    has an exact row never comes back empty. *)
Theorem exact_row_is_contained (source : Table) (cat : Catalog) (m : string)
    (c : CatRow) :
  load_catalog source = Ok cat →
  c ∈ exact_hits cat m →
  c ∈ containing cat (normalized m) ∧ containing cat (normalized m) ≠ [].
Proof.
  intros (Hcol & ->)%load_catalog_Ok Hc.
  assert (Hin : c ∈ containing
                  {| cat_columns := columns source;
                     cat_rows := (λ r, {| cells := r;
                                          cat_key := normalized
                                            (default "" (cell (columns source) r "Model")) |})
                                   <$> (fillna <$> rows source) |} (normalized m)).
  { unfold exact_hits, containing in *. cbn [cat_rows cat_columns] in *.
    apply list_elem_of_filter in Hc as [Hk Hc]. apply list_elem_of_filter. split; [|done].
    apply list_elem_of_fmap in Hc as (r & -> & _). cbn [cells cat_key] in *.
    rewrite <-Hk. apply contains_normalized. }
  split; [done|]. intros Hnil. rewrite Hnil in Hin. by apply elem_of_nil in Hin.
Qed.

Lemma exact_row_is_contained_witness :
  {| cells := ["PRD-1001"; " "; "Widget"]; cat_key := "PRD-1001" |}
    ∈ containing blank_catalog (normalized " prd-1001") ∧
  containing blank_catalog (normalized " prd-1001") ≠ [].
Proof.
  apply (exact_row_is_contained blank_source blank_catalog " prd-1001").
  - reflexivity.
  - assert (H : exact_hits blank_catalog " prd-1001" =
                [ {| cells := ["PRD-1001"; " "; "Widget"]; cat_key := "PRD-1001" |} ])
      by reflexivity.
    rewrite H. left.
Defined.

(** ** The contains scan and the second merge *)

Section scan.

Implicit Types (cat : Catalog) (models keys : list string) (k m : string).

Lemma filter_fmap {A B : Type} (P : B → Prop) `{!∀ x, Decision (P x)}
    (f : A → B) (l : list A) :
  filter P (f <$> l) = f <$> filter (λ x, P (f x)) l.
Proof.
  induction l as [|x l IH]; [done|].
  rewrite fmap_cons, !filter_cons, IH. by destruct (decide (P (f x))).
Qed.

Lemma existsb_false_filter {A : Type} (p : A → bool) (l : list A) :
  existsb p l = false → filter (λ x, p x = true) l = [].
Proof.
  intros H. apply filter_none. intros x Hx Hp.
  assert (existsb p l = true); [|congruence].
  apply existsb_exists. exists x. split; [by apply list_elem_of_In | done].
Qed.

Lemma at_most_one {A : Type} (l : list A) x : length l ≤ 1 → x ∈ l → l = [x].
Proof.
  destruct l as [|y [|z l]]; cbn [length]; intros Hlen Hx; [|  |lia].
  - by apply elem_of_nil in Hx.
  - by apply list_elem_of_singleton in Hx as ->.
Qed.

Lemma contains_scan_elem cat keys d :
  d ∈ contains_scan cat keys ↔
  ∃ key row rest, key ∈ keys ∧ containing cat key = row :: rest ∧
                  d = hit_row cat key row.
Proof.
  unfold contains_scan. rewrite list_elem_of_bind. split.
  - intros (key & Hd & Hkey). exists key.
    change (filter _ (cat_rows cat)) with (containing cat key) in Hd.
    destruct (containing cat key) as [|row rest]; [by apply elem_of_nil in Hd|].
    apply list_elem_of_singleton in Hd as ->. by exists row, rest.
  - intros (key & row & rest & Hkey & Hc & ->). exists key. split; [|done].
    change (filter _ (cat_rows cat)) with (containing cat key).
    rewrite Hc. by apply list_elem_of_singleton.
Qed.

Lemma contains_scan_nil cat keys :
  (∀ k, k ∈ keys → containing cat k = []) → contains_scan cat keys = [].
Proof.
  intros H. destruct (contains_scan cat keys) as [|d ds] eqn:Hscan; [done|].
  assert (Hd : d ∈ contains_scan cat keys) by (rewrite Hscan; left).
  apply contains_scan_elem in Hd as (key & row & rest & Hkey & Hc & _).
  by rewrite (H key Hkey) in Hc.
Qed.

(** What the second merge finds in [contains_df] for a row of [res]. *)
Lemma scan_lookup_hit cat keys k c cs (r : ResRow) :
  NoDup keys → k ∈ keys → containing cat k = c :: cs → _key r = k →
  head (matches _key hit_key r (contains_scan cat keys)) = Some (hit_row cat k c).
Proof.
  intros Hnd Hk Hc Hr.
  rewrite (at_most_one _ (hit_row cat k c)); [done| |].
  - apply hits_NoDup. by apply contains_scan_NoDup.
  - apply list_elem_of_filter. split; [done|].
    apply contains_scan_elem. by exists k, c, cs.
Qed.

Lemma scan_lookup_miss cat keys (r : ResRow) :
  _key r ∉ keys ∨ containing cat (_key r) = [] →
  head (matches _key hit_key r (contains_scan cat keys)) = None.
Proof.
  intros H. unfold matches. rewrite filter_none; [done|].
  intros d (key & row & rest & Hkey & Hc & ->)%contains_scan_elem Hd.
  cbn [hit_row hit_key] in Hd. subst key. destruct H as [H|H]; [done|].
  by rewrite H in Hc.
Qed.

(** The engine when the scan binds no key: the contains option changes
    nothing. *)
Lemma resolve_no_hit cat models :
  serves cat = true →
  contains_scan cat (scanned cat models) = [] →
  resolve cat true models = resolve cat false models.
Proof.
  intros (Hmodel & Hmlp & _)%serves_columns Hscan. unfold resolve, contains_fallback.
  cbn [merge_exact has_MLP res_rows]. rewrite Hmlp, Hmodel. cbn [negb].
  destruct (existsb _ _); [|done].
  unfold scanned in Hscan. cbn [merge_exact res_rows] in Hscan. by rewrite Hscan.
Qed.

(** The engine when the scan binds a key: every row of the exact merge
    has its catalogue columns read again from the scan. *)
Lemma resolve_hit cat models :
  serves cat = true →
  contains_scan cat (scanned cat models) ≠ [] →
  resolve cat true models =
    Ok {| shows_Description := true;
          display_rows :=
            (λ r, display_row true
                    (join_contains r
                       (head (matches _key hit_key r
                                (contains_scan cat (scanned cat models))))))
              <$> res_rows (merge_exact cat models) |}.
Proof.
  intros (Hmodel & Hmlp & Hin)%serves_columns Hscan. unfold resolve, contains_fallback.
  cbn [merge_exact has_MLP res_rows]. rewrite Hmlp, Hmodel. cbn [negb].
  unfold scanned, missing_keys in Hscan. cbn [merge_exact res_rows] in Hscan.
  destruct (existsb _ _) eqn:Hex.
  - fold (missing_keys (merge_left snd cat_key (join_exact (cat_columns cat))
                          (query_frame models) (cat_rows cat))) in Hscan |- *.
    destruct (contains_scan cat _) as [|d ds] eqn:Hd; [done|].
    unfold display. rewrite Hin. cbn [merge_contains has_MLP has_Model has_Description negb].
    rewrite <-Hd. f_equal. f_equal.
    pose proof (merge_contains_rows (merge_exact cat models)
                  (missing_keys (res_rows (merge_exact cat models))) cat
                  (NoDup_unique _)) as Hrows.
    etrans; [exact (f_equal (fmap (display_row true)) Hrows)|].
    by rewrite <-list_fmap_compose.
  - apply existsb_false_filter in Hex. by rewrite Hex in Hscan.
Qed.

End scan.

(** Property X7.
    When no catalogue model contains any of the keys the scan runs over
    (in particular when no key is left to scan), the contains option
    changes nothing: the engine returns what it returns with the option
    off. *)
Theorem contains_option_no_effect (cat : Catalog) (models : list string) :
  serves cat = true →
  (∀ k, k ∈ scanned cat models → containing cat k = []) →
  resolve cat true models = resolve cat false models.
Proof.
  intros Hs Hnone. apply resolve_no_hit; [done|]. by apply contains_scan_nil.
Qed.

Lemma contains_option_no_effect_witness :
  resolve single_catalog true ["prd-1001"; "ZZZ"] =
  resolve single_catalog false ["prd-1001"; "ZZZ"].
Proof.
  apply (contains_option_no_effect single_catalog ["prd-1001"; "ZZZ"]).
  - reflexivity.
  - intros k Hk.
    assert (Hsc : scanned single_catalog ["prd-1001"; "ZZZ"] = ["ZZZ"]) by reflexivity.
    rewrite Hsc in Hk. apply list_elem_of_singleton in Hk. rewrite Hk. reflexivity.
Defined.

(** Property X8.
    With the contains option on, a scanned key that some catalogue model
    contains is bound from the first such row in catalogue order: every
    entry of that key shows that row's [Model], [MLP] and [Description],
    and its status is read off that [MLP]. *)
Theorem contains_binds_first_row (cat : Catalog) (models : list string)
    (k : string) (c : CatRow) (cs : list CatRow) :
  serves cat = true →
  k ∈ scanned cat models →
  containing cat k = c :: cs →
  ∃ fr, resolve cat true models = Ok fr ∧
    (∃ r, r ∈ display_rows fr ∧ _key (res_row r) = k) ∧
    ∀ r, r ∈ display_rows fr → _key (res_row r) = k →
      Model (res_row r) = Some (hit_Model (hit_row cat k c)) ∧
      MLP (res_row r) = Some (hit_MLP (hit_row cat k c)) ∧
      Description (res_row r) = Some (hit_Description (hit_row cat k c)) ∧
      Model_shown r = hit_Model (hit_row cat k c) ∧
      Status r = status_of (Some (hit_MLP (hit_row cat k c))).
Proof.
  intros Hs Hk Hc.
  assert (Hhit : ∀ r : ResRow, _key r = k →
            head (matches _key hit_key r (contains_scan cat (scanned cat models)))
            = Some (hit_row cat k c)).
  { intros r Hr. eapply scan_lookup_hit; [apply NoDup_unique|done..]. }
  assert (Hscan : contains_scan cat (scanned cat models) ≠ []).
  { intros Hnil.
    assert (Hd : hit_row cat k c ∈ contains_scan cat (scanned cat models))
      by (apply contains_scan_elem; by exists k, c, cs).
    rewrite Hnil in Hd. by apply elem_of_nil in Hd. }
  eexists. split; [by apply resolve_hit|]. cbn [display_rows]. split.
  - unfold scanned, missing_keys in Hk.
    apply elem_of_unique, list_elem_of_fmap in Hk as (r & -> & [_ Hr]%list_elem_of_filter).
    eexists. split; [apply list_elem_of_fmap; by exists r|]. done.
  - intros r' (r & -> & Hr)%list_elem_of_fmap Hkey. cbn in Hkey.
    rewrite (Hhit r Hkey). done.
Qed.

Lemma contains_binds_first_row_witness :
  ∃ fr, resolve blank_catalog true ["prd-1001"] = Ok fr ∧
    (∃ r, r ∈ display_rows fr ∧ _key (res_row r) = "PRD-1001") ∧
    ∀ r, r ∈ display_rows fr → _key (res_row r) = "PRD-1001" →
      Model (res_row r) = Some "ABC-PRD-1001-X" ∧
      MLP (res_row r) = Some "M9" ∧
      Description (res_row r) = Some "Gadget" ∧
      Model_shown r = "ABC-PRD-1001-X" ∧
      Status r = "OK".
Proof.
  apply (contains_binds_first_row blank_catalog ["prd-1001"] "PRD-1001"
           {| cells := ["ABC-PRD-1001-X"; "M9"; "Gadget"];
              cat_key := "ABC-PRD-1001-X" |}
           [ {| cells := ["PRD-1001"; " "; "Widget"]; cat_key := "PRD-1001" |} ]).
  - reflexivity.
  - apply (bool_decide_unpack _). vm_compute. exact I.
  - reflexivity.
Defined.

(** Property X9.
    With the contains option on, as soon as the scan binds one key, every
    entry whose key was not scanned, or was scanned without a hit, has
    its catalogue columns emptied: it shows the pasted text, no [MLP] and
    status "Not found", whatever the exact merge had found for it. *)
Theorem contains_merge_unbinds (cat : Catalog) (models : list string)
    (k0 : string) (c0 : CatRow) (cs0 : list CatRow) :
  serves cat = true →
  k0 ∈ scanned cat models →
  containing cat k0 = c0 :: cs0 →
  ∃ fr, resolve cat true models = Ok fr ∧
    ∀ r, r ∈ display_rows fr →
      _key (res_row r) ∉ scanned cat models ∨
        containing cat (_key (res_row r)) = [] →
      Model (res_row r) = None ∧ MLP (res_row r) = None ∧
      Description (res_row r) = None ∧
      Model_shown r = Model_in (res_row r) ∧ Status r = "Not found".
Proof.
  intros Hs Hk Hc.
  assert (Hscan : contains_scan cat (scanned cat models) ≠ []).
  { intros Hnil.
    assert (Hd : hit_row cat k0 c0 ∈ contains_scan cat (scanned cat models))
      by (apply contains_scan_elem; by exists k0, c0, cs0).
    rewrite Hnil in Hd. by apply elem_of_nil in Hd. }
  eexists. split; [by apply resolve_hit|]. cbn [display_rows].
  intros r' (r & -> & Hr)%list_elem_of_fmap Hmiss.
  change (_key r ∉ scanned cat models ∨ containing cat (_key r) = []) in Hmiss.
  rewrite (scan_lookup_miss cat _ r Hmiss). done.
Qed.

Lemma contains_merge_unbinds_witness :
  ∃ fr, resolve (catalog_of mixed_source) true ["PRD-1001"; "PRD-2002"] = Ok fr ∧
    ∀ r, r ∈ display_rows fr →
      _key (res_row r) ∉ scanned (catalog_of mixed_source) ["PRD-1001"; "PRD-2002"] ∨
        containing (catalog_of mixed_source) (_key (res_row r)) = [] →
      Model (res_row r) = None ∧ MLP (res_row r) = None ∧
      Description (res_row r) = None ∧
      Model_shown r = Model_in (res_row r) ∧ Status r = "Not found".
Proof.
  apply (contains_merge_unbinds (catalog_of mixed_source)
           ["PRD-1001"; "PRD-2002"] "PRD-2002"
           {| cells := ["ABC-PRD-2002-X"; "M9"; "Gadget"];
              cat_key := "ABC-PRD-2002-X" |} []).
  - reflexivity.
  - apply (bool_decide_unpack _). vm_compute. exact I.
  - reflexivity.
Defined.

(** ** Keys that are not found, failures and the table shown *)

Section table.

Implicit Types (cat : Catalog) (models : list string) (m : string).

Lemma resolve_missing_off cat models m :
  serves cat = true → NoDup (normalized <$> models) → m ∈ models →
  exact_hits cat m = [] →
  ∃ fr, resolve cat false models = Ok fr ∧
    filter (λ r, _key (res_row r) = normalized m) (display_rows fr) =
    [ {| res_row := {| Model_in := m; _key := normalized m; Model := None;
                       MLP := None; Description := None |};
         Model_shown := m; Status := "Not found" |} ].
Proof.
  intros Hs Hnd Hm Hhits.
  destruct (resolve_Ok cat false models Hs) as (res & Hr & _ & Hres).
  rewrite (Hres eq_refl) in Hr. eexists. split; [exact Hr|]. cbn [display_rows].
  rewrite filter_fmap.
  change (filter _ (res_rows (merge_exact cat models)))
    with (filter (λ r, _key r = normalized m) (res_rows (merge_exact cat models))).
  rewrite merge_exact_filter, merge_exact_one, Hhits by done.
  cbn. by destruct (has_column (cat_columns cat) "Model").
Qed.

Lemma resolve_rows_status cat allow_contains models fr :
  resolve cat allow_contains models = Ok fr →
  Forall (λ r, Status r = "OK" ∨ Status r = "Not found") (display_rows fr).
Proof.
  unfold resolve. destruct (if allow_contains then _ else _) as [res|]; [|done].
  unfold display. destruct (has_column _ _); [done|].
  destruct (negb (has_MLP res)); [done|]. intros [= <-]. cbn [display_rows].
  apply Forall_fmap, Forall_forall. intros r _. cbn. unfold status_of.
  destruct (is_missing (MLP r)); auto.
Qed.

Lemma resolve_raises cat allow_contains models :
  has_column (cat_columns cat) "Model" = true →
  serves cat = false → raises (resolve cat allow_contains models).
Proof.
  intros Hmodel Hs. destruct (has_column (cat_columns cat) "MLP") eqn:Hmlp;
    [|by apply resolve_without_mlp_column].
  unfold resolve.
  destruct (if allow_contains then _ else _) as [res|]; [|done].
  unfold display. destruct (has_column (cat_columns cat) "Model_in") eqn:Hin; [done|].
  unfold serves in Hs. by rewrite Hmodel, Hmlp, Hin in Hs.
Qed.

Lemma raises_Raise {A : Type} (r : result A) : raises r ↔ ∃ e, r = Raise e.
Proof. destruct r; split; [done | by intros [? ?] | by eauto | done]. Qed.

Lemma filter_status_length (l : list DisplayRow) :
  Forall (λ r, Status r = "OK" ∨ Status r = "Not found") l →
  length (filter (λ r, Status r = "Not found") l) = length l - matched l ∧
  matched l ≤ length l.
Proof.
  unfold matched. induction 1 as [|r l Hr _ [IH1 IH2]]; [done|].
  rewrite !filter_cons. destruct Hr as [Hr|Hr]; rewrite Hr.
  - rewrite decide_False, decide_True by done. cbn [length]. lia.
  - rewrite decide_True, decide_False by done. cbn [length]. lia.
Qed.

Lemma matched_not_found (l : list DisplayRow) :
  matched (filter (λ r, Status r = "Not found") l) = 0.
Proof.
  unfold matched. rewrite filter_none; [done|].
  intros r [Hr _]%list_elem_of_filter Hok. congruence.
Qed.

Lemma parse_models_single (text : string) :
  no_delim text = true → Py.strip text ≠ "" →
  parse_models text = [Py.strip text].
Proof.
  intros Hnd Hne. unfold parse_models.
  rewrite bool_decide_eq_false_2, re_split_one by done. cbn [parse_loop].
  rewrite bool_decide_eq_false_2 by done.
  rewrite bool_decide_eq_false_2; [done | apply not_elem_of_empty].
Qed.

End table.

(** Property X10.
    A key with no exact catalogue row, and (if the contains option is on)
    contained in no catalogue model, gets exactly one entry: it shows the
    text as pasted, no [MLP], and status "Not found". *)
Theorem missing_key_entry (cat : Catalog) (allow_contains : bool)
    (models : list string) (m : string) :
  serves cat = true →
  NoDup (normalized <$> models) →
  m ∈ models →
  exact_hits cat m = [] →
  allow_contains = false ∨ containing cat (normalized m) = [] →
  ∃ fr, resolve cat allow_contains models = Ok fr ∧
    filter (λ r, _key (res_row r) = normalized m) (display_rows fr) =
    [ {| res_row := {| Model_in := m; _key := normalized m; Model := None;
                       MLP := None; Description := None |};
         Model_shown := m; Status := "Not found" |} ].
Proof.
  intros Hs Hnd Hm Hhits Hoff.
  destruct allow_contains; [|by apply resolve_missing_off].
  destruct Hoff as [|Hnone]; [done|].
  destruct (contains_scan cat (scanned cat models)) as [|d ds] eqn:Hscan.
  - rewrite resolve_no_hit by done. by apply resolve_missing_off.
  - eexists. split; [apply resolve_hit; [done | by rewrite Hscan]|].
    cbn [display_rows]. rewrite filter_fmap.
    change (filter _ (res_rows (merge_exact cat models)))
      with (filter (λ r, _key r = normalized m) (res_rows (merge_exact cat models))).
    rewrite merge_exact_filter, merge_exact_one, Hhits by done.
    rewrite list_fmap_singleton. rewrite scan_lookup_miss; [done|]. by right.
Qed.

Lemma missing_key_entry_witness :
  ∃ fr, resolve single_catalog true ["prd-1001"; "zz-9"] = Ok fr ∧
    filter (λ r, _key (res_row r) = normalized "zz-9") (display_rows fr) =
    [ {| res_row := {| Model_in := "zz-9"; _key := normalized "zz-9";
                       Model := None; MLP := None; Description := None |};
         Model_shown := "zz-9"; Status := "Not found" |} ].
Proof.
  apply (missing_key_entry single_catalog true ["prd-1001"; "zz-9"] "zz-9").
  - reflexivity.
  - apply (bool_decide_unpack _). vm_compute. exact I.
  - apply (bool_decide_unpack _). vm_compute. exact I.
  - reflexivity.
  - right. reflexivity.
Defined.

(** Property X11.
    For a catalogue file that loads and a text with at least one key, the
    lookup raises exactly when the file has no [MLP] column or has a
    column called [Model_in]; otherwise a table is shown. *)
Theorem lookup_raises_iff (source : Table) (show_only_not_found allow_contains : bool)
    (text : string) :
  has_column (columns source) "Model" = true →
  parse_models text ≠ [] →
  ((∃ e, find_mlps source show_only_not_found allow_contains text = Raised e) ↔
   has_column (columns source) "MLP" = false ∨
   has_column (columns source) "Model_in" = true) ∧
  ((∃ header table,
      find_mlps source show_only_not_found allow_contains text = Shown header table) ↔
   has_column (columns source) "MLP" = true ∧
   has_column (columns source) "Model_in" = false).
Proof.
  intros Hmodel Hkeys. unfold find_mlps.
  assert (Hload : ∃ cat, load_catalog source = Ok cat ∧ cat_columns cat = columns source).
  { unfold load_catalog. rewrite Hmodel. eauto. }
  destruct Hload as (cat & -> & Hcols).
  destruct (parse_models text) as [|m ms]; [done|]. rewrite <-Hcols in *.
  destruct (serves cat) eqn:Hs.
  - destruct (resolve_Ok cat allow_contains (m :: ms) Hs) as (res & -> & _).
    apply serves_columns in Hs as (_ & Hmlp & Hin). rewrite Hmlp, Hin.
    split; split; try done; try by intros [? | ?].
    + by intros [e ?].
    + eauto.
  - pose proof (resolve_raises cat allow_contains (m :: ms) Hmodel Hs) as Hr.
    apply raises_Raise in Hr as [e ->].
    assert (Hcase : has_column (cat_columns cat) "MLP" = false ∨
                    has_column (cat_columns cat) "Model_in" = true).
    { unfold serves in Hs. rewrite Hmodel in Hs.
      destruct (has_column (cat_columns cat) "MLP"); [|by left].
      destruct (has_column (cat_columns cat) "Model_in"); [by right | done]. }
    split; split; try done; try eauto.
    + by intros (? & ? & ?).
    + intros [Hmlp Hin]. destruct Hcase; congruence.
Qed.

Lemma lookup_raises_iff_witness :
  ((∃ e, find_mlps model_only_source true false "a,b" = Raised e) ↔
   has_column (columns model_only_source) "MLP" = false ∨
   has_column (columns model_only_source) "Model_in" = true) ∧
  ((∃ header table,
      find_mlps model_only_source true false "a,b" = Shown header table) ↔
   has_column (columns model_only_source) "MLP" = true ∧
   has_column (columns model_only_source) "Model_in" = false).
Proof.
  apply (lookup_raises_iff model_only_source true false "a,b").
  - reflexivity.
  - vm_compute. discriminate.
Defined.

(** Property X12.
    The "show only not found" box keeps, in order, exactly the entries
    of the unfiltered table whose status is "Not found"; the success
    message is counted on the table as shown, so with the box ticked it
    always reports 0 matched, out of the number of entries not found. *)
Theorem show_only_not_found_table (source : Table) (allow_contains : bool)
    (text : string) (header : list string) (table : list DisplayRow) :
  find_mlps source false allow_contains text = Shown header table →
  find_mlps source true allow_contains text =
    Shown header (filter (λ r, Status r = "Not found") table) ∧
  success_counts (find_mlps source false allow_contains text) =
    Some (matched table, length table) ∧
  success_counts (find_mlps source true allow_contains text) =
    Some (0, length table - matched table) ∧
  matched table ≤ length table.
Proof.
  intros Hoff. assert (Hon : find_mlps source true allow_contains text =
                             Shown header (filter (λ r, Status r = "Not found") table)).
  { unfold find_mlps in *. destruct (load_catalog source) as [cat|]; [|done].
    destruct (parse_models text) as [|m ms]; [done|].
    destruct (resolve cat allow_contains (m :: ms)) as [fr|]; [|done].
    by injection Hoff as <- <-. }
  assert (Hst : Forall (λ r, Status r = "OK" ∨ Status r = "Not found") table).
  { unfold find_mlps in Hoff. destruct (load_catalog source) as [cat|]; [|done].
    destruct (parse_models text) as [|m ms]; [done|].
    destruct (resolve cat allow_contains (m :: ms)) as [fr|] eqn:Hr; [|done].
    injection Hoff as _ <-. by eapply resolve_rows_status. }
  destruct (filter_status_length table Hst) as [Hlen Hle].
  rewrite Hon, Hoff. cbn [success_counts]. by rewrite matched_not_found, Hlen.
Qed.

Lemma show_only_not_found_table_witness :
  ∃ header table,
    find_mlps mixed_source false false "PRD-1001,q,PRD-2002" = Shown header table ∧
    find_mlps mixed_source true false "PRD-1001,q,PRD-2002" =
      Shown header (filter (λ r, Status r = "Not found") table) ∧
    success_counts (find_mlps mixed_source true false "PRD-1001,q,PRD-2002") =
      Some (0, length table - matched table).
Proof.
  assert (H : ∃ header table,
            find_mlps mixed_source false false "PRD-1001,q,PRD-2002" = Shown header table)
    by (vm_compute; eauto).
  destruct H as (header & table & Hrun). exists header, table.
  destruct (show_only_not_found_table mixed_source false "PRD-1001,q,PRD-2002"
              header table Hrun) as (Hon & _ & Hcount & _).
  auto.
Defined.

Example counts_with_filter :
  success_counts (find_mlps mixed_source false false "PRD-1001,q,PRD-2002") = Some (1, 3) ∧
  success_counts (find_mlps mixed_source true false "PRD-1001,q,PRD-2002") = Some (0, 2).
Proof. split; vm_compute; reflexivity. Qed.

(** Property X13.
    Looking up a model of the catalogue finds it: for a catalogue file
    with the columns [Model] and [MLP] (and none called [Model_in]), a
    pasted text without delimiters that normalizes like the [Model] cell
    of some row, whatever its case and the white space around it, is shown
    (contains option off) with an entry carrying that row's own spelling
    of the model and that row's [MLP], the status being read off it. *)
Theorem catalogue_model_is_found (source : Table) (row : list (option string))
    (model text : string) :
  has_column (columns source) "Model" = true →
  has_column (columns source) "MLP" = true →
  has_column (columns source) "Model_in" = false →
  row ∈ rows source →
  cell (columns source) (fillna row) "Model" = Some model →
  no_delim text = true →
  Py.strip text ≠ "" →
  normalized text = normalized model →
  ∃ header table e,
    find_mlps source false false text = Shown header table ∧
    e ∈ table ∧
    Model_in (res_row e) = Py.strip text ∧
    Model_shown e = model ∧
    MLP (res_row e) = cell (columns source) (fillna row) "MLP" ∧
    Status e = status_of (cell (columns source) (fillna row) "MLP").
Proof.
  intros Hmodel Hmlp Hin Hrow Hcell Hnd Hne Hnorm.
  set (cols := columns source) in *.
  set (c := {| cells := fillna row; cat_key := normalized model |}).
  set (cat := {| cat_columns := cols;
                 cat_rows := (λ r, {| cells := r;
                                      cat_key := normalized (default "" (cell cols r "Model")) |})
                               <$> (fillna <$> rows source) |}).
  assert (Hload : load_catalog source = Ok cat).
  { unfold load_catalog. fold cols. by rewrite Hmodel. }
  assert (Hs : serves cat = true).
  { unfold serves. cbn [cat cat_columns]. by rewrite Hmodel, Hmlp, Hin. }
  assert (Hc : c ∈ exact_hits cat (Py.strip text)).
  { apply list_elem_of_filter. split.
    - cbn [c cat_key]. by rewrite normalized_of_strip.
    - cbn [cat cat_rows]. apply list_elem_of_fmap. exists (fillna row). split.
      + unfold c. by rewrite Hcell.
      + apply list_elem_of_fmap. eauto. }
  destruct (resolve_Ok cat false [Py.strip text] Hs) as (res & Hr & _ & Hres).
  rewrite (Hres eq_refl) in Hr. clear Hres res.
  unfold find_mlps. rewrite Hload, parse_models_single, Hr by done.
  eexists _, _, (display_row true
                   (join_exact cols (Py.strip text, normalized (Py.strip text)) (Some c))).
  split; [done|]. cbn [display_rows merge_exact has_Model cat cat_columns].
  rewrite Hmodel. split.
  - apply list_elem_of_fmap. eexists. split; [done|].
    apply (merge_exact_elem cat). exists (Py.strip text).
    split; [by apply list_elem_of_singleton|]. right. eauto.
  - cbn. rewrite Hcell. done.
Qed.

Lemma catalogue_model_is_found_witness :
  ∃ header table e,
    find_mlps duplicate_source false false "Prd-1001 " = Shown header table ∧
    e ∈ table ∧
    Model_in (res_row e) = Py.strip "Prd-1001 " ∧
    Model_shown e = " prd-1001" ∧
    MLP (res_row e) =
      cell (columns duplicate_source)
        (fillna [Some " prd-1001"; Some "M2"; Some "Other"]) "MLP" ∧
    Status e =
      status_of (cell (columns duplicate_source)
                   (fillna [Some " prd-1001"; Some "M2"; Some "Other"]) "MLP").
Proof.
  apply (catalogue_model_is_found duplicate_source
           [Some " prd-1001"; Some "M2"; Some "Other"] " prd-1001" "Prd-1001 ").
  - reflexivity.
  - reflexivity.
  - reflexivity.
  - apply (bool_decide_unpack _). vm_compute. exact I.
  - reflexivity.
  - reflexivity.
  - vm_compute. discriminate.
  - reflexivity.
Defined.

(** Property X14.
    The table shown has a [Description] column exactly when the catalogue
    has one or the contains scan has bound at least one key: the second
    merge brings the column in even for a catalogue without it. *)
Theorem description_column (cat : Catalog) (allow_contains : bool)
    (models : list string) :
  serves cat = true →
  ∃ fr, resolve cat allow_contains models = Ok fr ∧
    (final_columns fr = ["Model"; "MLP"; "Description"; "Status"] ∨
     final_columns fr = ["Model"; "MLP"; "Status"]) ∧
    (shows_Description fr = true ↔
     has_column (cat_columns cat) "Description" = true ∨
     (allow_contains = true ∧
      ∃ k c cs, k ∈ scanned cat models ∧ containing cat k = c :: cs)).
Proof.
  intros Hs.
  assert (Hoff : ∃ fr, resolve cat false models = Ok fr ∧
                   shows_Description fr = has_column (cat_columns cat) "Description").
  { destruct (resolve_Ok cat false models Hs) as (res & Hr & _ & Hres).
    rewrite (Hres eq_refl) in Hr. eauto. }
  assert (Hcols : ∀ fr : DisplayFrame,
            final_columns fr = ["Model"; "MLP"; "Description"; "Status"] ∨
            final_columns fr = ["Model"; "MLP"; "Status"]).
  { intros fr. unfold final_columns. destruct (shows_Description fr); auto. }
  destruct allow_contains.
  - destruct (contains_scan cat (scanned cat models)) as [|d ds] eqn:Hscan.
    + rewrite resolve_no_hit by done. destruct Hoff as (fr & Hr & Hd).
      exists fr. split; [done|]. split; [done|]. rewrite Hd. split; [auto|].
      intros [?|(_ & k & c & cs & Hk & Hc)]; [done|].
      assert (Hin : hit_row cat k c ∈ contains_scan cat (scanned cat models))
        by (apply contains_scan_elem; by exists k, c, cs).
      rewrite Hscan in Hin. by apply elem_of_nil in Hin.
    + eexists. split; [apply resolve_hit; [done | by rewrite Hscan]|].
      split; [done|]. cbn [shows_Description]. split; [|done]. intros _. right.
      split; [done|].
      assert (Hin : d ∈ contains_scan cat (scanned cat models)) by (rewrite Hscan; left).
      apply contains_scan_elem in Hin as (k & c & cs & Hk & Hc & _). eauto.
  - destruct Hoff as (fr & Hr & Hd). exists fr. split; [done|]. split; [done|].
    rewrite Hd. split; [auto|]. by intros [?|[? _]].
Qed.

Lemma description_column_witness :
  ∃ fr, resolve (catalog_of no_description_source) true ["prd-1"] = Ok fr ∧
    (final_columns fr = ["Model"; "MLP"; "Description"; "Status"] ∨
     final_columns fr = ["Model"; "MLP"; "Status"]) ∧
    (shows_Description fr = true ↔
     has_column (cat_columns (catalog_of no_description_source)) "Description" = true ∨
     (true = true ∧
      ∃ k c cs, k ∈ scanned (catalog_of no_description_source) ["prd-1"] ∧
                containing (catalog_of no_description_source) k = c :: cs)).
Proof.
  apply (description_column (catalog_of no_description_source) true ["prd-1"]).
  reflexivity.
Defined.

Example description_brought_in :
  find_mlps no_description_source false true "prd-1" =
    Shown ["Model"; "MLP"; "Description"; "Status"]
      [ {| res_row := {| Model_in := "prd-1"; _key := "PRD-1";
                         Model := Some "PRD-1001"; MLP := Some "M1";
                         Description := Some "" |};
           Model_shown := "PRD-1001"; Status := "OK" |} ].
Proof. vm_compute. reflexivity. Qed.
